(** * MyTVProject: the playback hooks and the TV remote handler

    A shallow embedding of
      - [src/hooks/usePlaybackState.ts]  (playback state and saved positions),
      - [src/hooks/useVideoHandler.ts]   (the driver of the expo-video player),
      - [components/video/VideoPlayer.tsx] (remote keys, focus, auto-hide),
      - [components/video/ProgressBar.tsx] (the press handler),
    followed by the properties of the specification that concern them.

    Conventions of the embedding.
      - A JavaScript [number] is a [Z]: positions and durations in whole
        seconds, [Date.now()] and timer delays in whole milliseconds.
      - A JavaScript string is a [string]; [!s] on a string is [s = ""].
      - The hooks' [useState]/[useRef] cells are the fields of one record,
        [World], threaded through every handler.
      - The expo-video player is not part of the repository: it is an
        interface, [Primitive], whose commands may return or throw. *)

From stdpp Require Import base option list strings gmap.
From Stdlib Require Import ZArith Lia.

Local Open Scope string_scope.
Local Open Scope list_scope.
Local Open Scope Z_scope.

(** ** types/video.ts : PlaybackState *)

(** [error?: string]. The outer option tells whether the object has the
    key at all, the inner one whether it holds [undefined] or a string:
    [updatePlaybackState({ error: undefined })] leaves the key in place. *)
Record PlaybackState := mkPlaybackState {
  isPlaying : bool;
  currentTime : Z;
  duration : Z;
  isLoading : bool;
  error : option (option string)
}.

(** [Partial<PlaybackState>]: [None] for a key the literal does not have. *)
Record PlaybackUpdates := mkUpdates {
  u_isPlaying : option bool;
  u_currentTime : option Z;
  u_duration : option Z;
  u_isLoading : option bool;
  u_error : option (option string)
}.

(** The argument of [useState] in usePlaybackState. *)
Definition initialPlaybackState : PlaybackState :=
  {| isPlaying := false; currentTime := 0; duration := 0;
     isLoading := true; error := None |}.

(** The object spread [{ ...prev, ...updates }]. *)
Definition spread (prev : PlaybackState) (updates : PlaybackUpdates)
  : PlaybackState :=
  {| isPlaying := default (isPlaying prev) (u_isPlaying updates);
     currentTime := default (currentTime prev) (u_currentTime updates);
     duration := default (duration prev) (u_duration updates);
     isLoading := default (isLoading prev) (u_isLoading updates);
     error := match u_error updates with
              | Some v => Some v
              | None => error prev
              end |}.

(** The specification's reading of a sequence of calls: the value a field
    was given by the last call that mentions it, if any call does. *)
Fixpoint lastProvided {A} (field : PlaybackUpdates -> option A)
    (calls : list PlaybackUpdates) : option A :=
  match calls with
  | [] => None
  | u :: rest =>
      match lastProvided field rest with
      | Some v => Some v
      | None => field u
      end
  end.

(** ** usePlaybackState.ts : the saved positions *)

Record PlaybackPosition := mkPosition {
  videoId_of : string;
  position : Z;
  timestamp : Z
}.

Definition dayMs : Z := 24 * 60 * 60 * 1000.

Module Store.

(** [playbackPositions.current], a [Map<string, PlaybackPosition>]. *)
Abbreviation t := (gmap string PlaybackPosition).

(** [savePlaybackPosition], with [Date.now()] passed in. *)
Definition save (now : Z) (videoId : string) (pos : Z) (m : t) : t :=
  if 30 <? pos
  then <[videoId := {| videoId_of := videoId; position := pos; timestamp := now |}]> m
  else m.

(** [clearPlaybackPosition] *)
Definition clear (videoId : string) (m : t) : t := delete videoId m.

(** [getSavedPosition]; an object is always truthy, so [if (savedPosition)]
    is the test that the key is present. *)
Definition get (now : Z) (videoId : string) (m : t) : Z :=
  match m !! videoId with
  | Some savedPosition =>
      let isRecent := now - timestamp savedPosition <? dayMs in
      if isRecent then position savedPosition else 0
  | None => 0
  end.

End Store.

(** ** The expo-video player, as the hooks see it *)

(** What the hooks ask of the player: the methods they call and the
    properties they assign. *)
Inductive Command :=
| SetLoop (b : bool)
| SetAllowsExternalPlayback (b : bool)
| SetMuted (b : bool)
| Play
| Pause
| SetCurrentTime (seconds : Z)
| Replace (source : string).

Global Instance Command_eq_dec : EqDecision Command.
Proof. solve_decision. Defined.

(** A call into the player returns or throws; either way the player may
    have changed. *)
Inductive Outcome (P : Type) :=
| Returned (p : P)
| Thrown (p : P).
Arguments Returned {P} p.
Arguments Thrown {P} p.

(** The player is a library object: its behaviour is a parameter of the
    development. [playing], [playerCurrentTime], [playerDuration] and
    [playerStatus] are the properties the hooks read. *)
Class Primitive (P : Type) := {
  playing : P -> bool;
  playerCurrentTime : P -> Z;
  playerDuration : P -> Z;
  playerStatus : P -> string;
  perform : Command -> P -> Outcome P
}.

(** ** VideoPlayer.tsx : the focusable controls *)

Inductive Control := back | seekBackward | playPause | seekForward | progress.

Global Instance Control_eq_dec : EqDecision Control.
Proof. solve_decision. Defined.

(** ** Timers *)

(** The closures handed to [setTimeout] and [setInterval], with the
    variables they capture. *)
Inductive Callback :=
| SeekCommit (position : Z)            (* handleSeek, 300 ms *)
| SeekWithPauseCommit (position : Z)   (* handleSeekWithPause, 100 ms *)
| ResumeAfterSeek                      (* inside the former, 300 ms *)
| LoadingTimedOut                      (* 30000 ms *)
| RestoreSavedPosition (savedPosition : Z)  (* 200 ms *)
| ProgressTick                         (* setInterval, 1000 ms *)
| HideControls.                        (* showControlsWithTimer, 3000 ms *)

Record Timer := mkTimer {
  timerId : positive;
  dueAt : Z;
  every : option Z;     (* the period, for a timer made by [setInterval] *)
  callback : Callback
}.

(** ** Handlers as state transformers that may throw *)

Inductive Result (W A : Type) :=
| Ok (a : A) (w : W)
| Uncaught (w : W).   (* an exception left the handler *)
Arguments Ok {W A} a w.
Arguments Uncaught {W A} w.

Definition Action (W A : Type) : Type := W -> Result W A.

Definition ret {W A} (a : A) : Action W A := fun w => Ok a w.

Definition bind {W A B} (m : Action W A) (k : A -> Action W B) : Action W B :=
  fun w => match m w with
           | Ok a w' => k a w'
           | Uncaught w' => Uncaught w'
           end.

Declare Scope action_scope.
Delimit Scope action_scope with action.
Bind Scope action_scope with Action.
Notation "x <- m ;; k" := (bind m (fun x => k))
  (at level 100, m at next level, k at level 200, right associativity)
  : action_scope.
Notation "m ;; k" := (bind m (fun _ => k))
  (at level 100, k at level 200, right associativity) : action_scope.
Local Open Scope action_scope.

Definition gets {W A} (f : W -> A) : Action W A := fun w => Ok (f w) w.
Definition modify {W} (f : W -> W) : Action W unit := fun w => Ok tt (f w).
Definition skip {W} : Action W unit := ret tt.

(** [try { body } catch (error) { handler }]; the handlers of the source
    only log the caught value. *)
Definition tryCatch {W} (body handler : Action W unit) : Action W unit :=
  fun w => match body w with
           | Ok a w' => Ok a w'
           | Uncaught w' => handler w'
           end.

(** [if (c) { body }] *)
Definition when {W} (c : bool) (body : Action W unit) : Action W unit :=
  if c then body else skip.

(** The state a handler leaves behind, however it ended. *)
Definition finalWorld {W A} (r : Result W A) : W :=
  match r with
  | Ok _ w => w
  | Uncaught w => w
  end.

Definition threw {W A} (r : Result W A) : bool :=
  match r with
  | Ok _ _ => false
  | Uncaught _ => true
  end.

(** ** The state the handlers share *)

Section Player.

Context {P : Type} `{Primitive P}.

(** [UseVideoHandlerProps], fixed for the life of the player, and
    [Platform.isTV]. *)
Variables (videoId url hlsUrl : string) (isTV : bool).

Record World := mkWorld {
  playbackState : PlaybackState;  (* [useState] of usePlaybackState *)
  playbackPositions : gmap string PlaybackPosition;  (* [playbackPositions.current] *)
  player : P;  (* the object returned by [useVideoPlayer] *)
  commands : list Command;  (* every command sent to the player so far, oldest first *)
  seekTimeout : option positive;  (* [seekTimeout.current] *)
  wasPlayingBeforeSeek : bool;  (* [wasPlayingBeforeSeek.current] *)
  loadingTimeout : option positive;  (* [loadingTimeout.current] *)
  showControls : bool;  (* [useState] of VideoPlayer *)
  focusedControl : option Control;  (* [useState] of VideoPlayer; [None] is [null] *)
  hideControlsTimeout : option positive;  (* [hideControlsTimeout.current] *)
  closeRequests : nat;  (* how often the [onClose] prop was called *)
  now : Z;  (* [Date.now()] *)
  pending : list Timer;  (* timers set and neither fired nor cleared, oldest first *)
  nextTimerId : positive  (* the handle the next [setTimeout] returns *)
}.

Definition set_playbackState (v : PlaybackState) (w : World) : World :=
  mkWorld v (playbackPositions w) (player w) (commands w) (seekTimeout w)
    (wasPlayingBeforeSeek w) (loadingTimeout w) (showControls w)
    (focusedControl w) (hideControlsTimeout w) (closeRequests w) (now w)
    (pending w) (nextTimerId w).
Definition set_playbackPositions (v : gmap string PlaybackPosition) (w : World) : World :=
  mkWorld (playbackState w) v (player w) (commands w) (seekTimeout w)
    (wasPlayingBeforeSeek w) (loadingTimeout w) (showControls w)
    (focusedControl w) (hideControlsTimeout w) (closeRequests w) (now w)
    (pending w) (nextTimerId w).
Definition set_player (v : P) (w : World) : World :=
  mkWorld (playbackState w) (playbackPositions w) v (commands w)
    (seekTimeout w) (wasPlayingBeforeSeek w) (loadingTimeout w)
    (showControls w) (focusedControl w) (hideControlsTimeout w)
    (closeRequests w) (now w) (pending w) (nextTimerId w).
Definition set_commands (v : list Command) (w : World) : World :=
  mkWorld (playbackState w) (playbackPositions w) (player w) v
    (seekTimeout w) (wasPlayingBeforeSeek w) (loadingTimeout w)
    (showControls w) (focusedControl w) (hideControlsTimeout w)
    (closeRequests w) (now w) (pending w) (nextTimerId w).
Definition set_seekTimeout (v : option positive) (w : World) : World :=
  mkWorld (playbackState w) (playbackPositions w) (player w) (commands w) v
    (wasPlayingBeforeSeek w) (loadingTimeout w) (showControls w)
    (focusedControl w) (hideControlsTimeout w) (closeRequests w) (now w)
    (pending w) (nextTimerId w).
Definition set_wasPlayingBeforeSeek (v : bool) (w : World) : World :=
  mkWorld (playbackState w) (playbackPositions w) (player w) (commands w)
    (seekTimeout w) v (loadingTimeout w) (showControls w)
    (focusedControl w) (hideControlsTimeout w) (closeRequests w) (now w)
    (pending w) (nextTimerId w).
Definition set_loadingTimeout (v : option positive) (w : World) : World :=
  mkWorld (playbackState w) (playbackPositions w) (player w) (commands w)
    (seekTimeout w) (wasPlayingBeforeSeek w) v (showControls w)
    (focusedControl w) (hideControlsTimeout w) (closeRequests w) (now w)
    (pending w) (nextTimerId w).
Definition set_showControls (v : bool) (w : World) : World :=
  mkWorld (playbackState w) (playbackPositions w) (player w) (commands w)
    (seekTimeout w) (wasPlayingBeforeSeek w) (loadingTimeout w) v
    (focusedControl w) (hideControlsTimeout w) (closeRequests w) (now w)
    (pending w) (nextTimerId w).
Definition set_focusedControl (v : option Control) (w : World) : World :=
  mkWorld (playbackState w) (playbackPositions w) (player w) (commands w)
    (seekTimeout w) (wasPlayingBeforeSeek w) (loadingTimeout w)
    (showControls w) v (hideControlsTimeout w) (closeRequests w) (now w)
    (pending w) (nextTimerId w).
Definition set_hideControlsTimeout (v : option positive) (w : World) : World :=
  mkWorld (playbackState w) (playbackPositions w) (player w) (commands w)
    (seekTimeout w) (wasPlayingBeforeSeek w) (loadingTimeout w)
    (showControls w) (focusedControl w) v (closeRequests w) (now w)
    (pending w) (nextTimerId w).
Definition set_closeRequests (v : nat) (w : World) : World :=
  mkWorld (playbackState w) (playbackPositions w) (player w) (commands w)
    (seekTimeout w) (wasPlayingBeforeSeek w) (loadingTimeout w)
    (showControls w) (focusedControl w) (hideControlsTimeout w) v (now w)
    (pending w) (nextTimerId w).
Definition set_now (v : Z) (w : World) : World :=
  mkWorld (playbackState w) (playbackPositions w) (player w) (commands w)
    (seekTimeout w) (wasPlayingBeforeSeek w) (loadingTimeout w)
    (showControls w) (focusedControl w) (hideControlsTimeout w)
    (closeRequests w) v (pending w) (nextTimerId w).
Definition set_pending (v : list Timer) (w : World) : World :=
  mkWorld (playbackState w) (playbackPositions w) (player w) (commands w)
    (seekTimeout w) (wasPlayingBeforeSeek w) (loadingTimeout w)
    (showControls w) (focusedControl w) (hideControlsTimeout w)
    (closeRequests w) (now w) v (nextTimerId w).
Definition set_nextTimerId (v : positive) (w : World) : World :=
  mkWorld (playbackState w) (playbackPositions w) (player w) (commands w)
    (seekTimeout w) (wasPlayingBeforeSeek w) (loadingTimeout w)
    (showControls w) (focusedControl w) (hideControlsTimeout w)
    (closeRequests w) (now w) (pending w) v.

Abbreviation Handler := (Action World).

(** A call of a player method or an assignment to a player property. *)
Definition call (c : Command) : Handler unit :=
  fun w =>
    let w' := set_commands (commands w ++ [c]) w in
    match perform c (player w) with
    | Returned p' => Ok tt (set_player p' w')
    | Thrown p' => Uncaught (set_player p' w')
    end.

(** [setTimeout(cb, delay)] *)
Definition setTimeout (cb : Callback) (delay : Z) : Handler positive :=
  fun w =>
    let id := nextTimerId w in
    Ok id (set_nextTimerId (Pos.succ id)
            (set_pending (pending w ++ [mkTimer id (now w + delay) None cb]) w)).

(** [setInterval(cb, period)] *)
Definition setInterval (cb : Callback) (period : Z) : Handler positive :=
  fun w =>
    let id := nextTimerId w in
    Ok id (set_nextTimerId (Pos.succ id)
            (set_pending
               (pending w ++ [mkTimer id (now w + period) (Some period) cb]) w)).

(** [clearTimeout(id)] *)
Definition clearTimeout (id : positive) : Handler unit :=
  modify (fun w =>
    set_pending (filter (fun t => timerId t ≠ id) (pending w)) w).

(** [if (ref.current) { clearTimeout(ref.current); }]: a timer handle is
    never falsy. *)
Definition clearIfSet (ref : World -> option positive) : Handler unit :=
  r <- gets ref ;;
  match r with
  | Some id => clearTimeout id
  | None => skip
  end.

(** *** usePlaybackState.ts *)

Definition updatePlaybackState (updates : PlaybackUpdates) : Handler unit :=
  modify (fun w => set_playbackState (spread (playbackState w) updates) w).

Definition savePlaybackPosition (position : Z) : Handler unit :=
  modify (fun w =>
    set_playbackPositions
      (Store.save (now w) videoId position (playbackPositions w)) w).

Definition clearPlaybackPosition : Handler unit :=
  modify (fun w =>
    set_playbackPositions (Store.clear videoId (playbackPositions w)) w).

Definition getSavedPosition : Handler Z :=
  gets (fun w => Store.get (now w) videoId (playbackPositions w)).

(** The effect on [videoId]: show a recent saved position at once. *)
Definition showSavedPosition : Handler unit :=
  saved <- gets (fun w => playbackPositions w !! videoId) ;;
  match saved with
  | Some savedPosition =>
      t <- gets now ;;
      when (t - timestamp savedPosition <? dayMs)
        (updatePlaybackState
           {| u_isPlaying := None;
              u_currentTime := Some (position savedPosition);
              u_duration := None; u_isLoading := None; u_error := None |})
  | None => skip
  end.

(** *** useVideoHandler.ts *)

(** [!s] for a string *)
Definition falsy (s : string) : bool := String.eqb s "".

(** The effect "Validate video URLs on initialization"; the second test
    only writes a warning to the console. *)
Definition validateUrls : Handler unit :=
  if falsy url && falsy hlsUrl
  then updatePlaybackState
         {| u_isPlaying := None; u_currentTime := None; u_duration := None;
            u_isLoading := Some false;
            u_error := Some (Some "No valid video URL provided") |}
  else skip.

Definition videoSource : string := if isTV then hlsUrl else url.

(** The set-up function passed to [useVideoPlayer]. *)
Definition configurePlayer : Handler unit :=
  tryCatch
    (call (SetLoop false) ;;
     call (SetAllowsExternalPlayback true) ;;
     call (SetMuted false))
    (updatePlaybackState
       {| u_isPlaying := None; u_currentTime := None; u_duration := None;
          u_isLoading := Some false;
          u_error := Some (Some "Failed to configure video player") |}).

(** The effect "Set up loading timeout", and its clean-up. *)
Definition startLoadingTimeout : Handler unit :=
  id <- setTimeout LoadingTimedOut 30000 ;;
  modify (set_loadingTimeout (Some id)).

Definition stopLoadingTimeout : Handler unit := clearIfSet loadingTimeout.

Definition handlePlayPause : Handler unit :=
  tryCatch
    (wasPlaying <- gets (fun w => playing (player w)) ;;
     (if wasPlaying then call Pause else call Play) ;;
     isNow <- gets (fun w => playing (player w)) ;;
     updatePlaybackState
       {| u_isPlaying := Some (negb isNow); u_currentTime := None;
          u_duration := None; u_isLoading := None; u_error := None |})
    (updatePlaybackState
       {| u_isPlaying := None; u_currentTime := None; u_duration := None;
          u_isLoading := None;
          u_error := Some (Some "Failed to control video playback") |}).

(** [if (player.playing) { player.pause(); updatePlaybackState({ isPlaying:
    false }); }], shared by the two seek handlers. *)
Definition pauseIfPlaying : Handler unit :=
  isPlayingNow <- gets (fun w => playing (player w)) ;;
  when isPlayingNow
    (call Pause ;;
     updatePlaybackState
       {| u_isPlaying := Some false; u_currentTime := None;
          u_duration := None; u_isLoading := None; u_error := None |}).

Definition showPosition (position : Z) : Handler unit :=
  updatePlaybackState
    {| u_isPlaying := None; u_currentTime := Some position;
       u_duration := None; u_isLoading := None; u_error := None |}.

Definition handleSeek (position : Z) : Handler unit :=
  tryCatch
    (clearIfSet seekTimeout ;;
     pauseIfPlaying ;;
     showPosition position ;;
     id <- setTimeout (SeekCommit position) 300 ;;
     modify (set_seekTimeout (Some id)))
    (updatePlaybackState
       {| u_isPlaying := None; u_currentTime := None; u_duration := None;
          u_isLoading := None;
          u_error := Some (Some "Failed to seek in video") |}).

Definition handleSeekWithPause (position : Z) : Handler unit :=
  isPlayingNow <- gets (fun w => playing (player w)) ;;
  modify (set_wasPlayingBeforeSeek isPlayingNow) ;;
  pauseIfPlaying ;;
  clearIfSet seekTimeout ;;
  showPosition position ;;
  id <- setTimeout (SeekWithPauseCommit position) 100 ;;
  modify (set_seekTimeout (Some id)).

Definition handleSeekForward : Handler unit :=
  st <- gets playbackState ;;
  let newPosition := Z.min (currentTime st + 10) (duration st) in
  handleSeekWithPause newPosition.

Definition handleSeekBackward : Handler unit :=
  st <- gets playbackState ;;
  let newPosition := Z.max (currentTime st - 10) 0 in
  handleSeekWithPause newPosition.

Definition handleRetry : Handler unit :=
  updatePlaybackState
    {| u_isPlaying := Some false; u_currentTime := Some 0; u_duration := None;
       u_isLoading := Some true; u_error := Some None |} ;;
  clearIfSet seekTimeout ;;
  tryCatch
    (let isCurrentlyHLS := String.eqb videoSource hlsUrl in
     let fallbackSource := if isCurrentlyHLS then url else hlsUrl in
     call (Replace fallbackSource))
    (updatePlaybackState
       {| u_isPlaying := None; u_currentTime := None; u_duration := None;
          u_isLoading := Some false;
          u_error := Some (Some "Failed to retry video playback") |}).

(** The payload of a [statusChange] event: [status.error] is absent, a
    string, or an object that may have a [message]. *)
Inductive ErrorPayload :=
| NoError
| ErrorString (s : string)
| ErrorObject (message : option string).

Record StatusChange := mkStatusChange {
  status : string;
  statusError : ErrorPayload
}.

(** [typeof status.error === "string" ? status.error
      : status.error?.message || "Video playback error occurred"] *)
Definition errorMessage (e : ErrorPayload) : string :=
  match e with
  | ErrorString s => s
  | ErrorObject (Some m) =>
      if falsy m then "Video playback error occurred" else m
  | ErrorObject None | NoError => "Video playback error occurred"
  end.

(** The listener added for ["statusChange"]. [x || 0] on a number that is
    an integer is [x]. *)
Definition onStatusChange (ev : StatusChange) : Handler unit :=
  if String.eqb (status ev) "idle" then
    updatePlaybackState
      {| u_isPlaying := Some false; u_currentTime := None; u_duration := None;
         u_isLoading := Some false; u_error := Some None |}
  else if String.eqb (status ev) "loading" then
    isActuallyLoading <-
      gets (fun w => (playerCurrentTime (player w) =? 0)
                     || negb (playing (player w))) ;;
    updatePlaybackState
      {| u_isPlaying := None; u_currentTime := None; u_duration := None;
         u_isLoading := Some isActuallyLoading; u_error := Some None |}
  else if String.eqb (status ev) "readyToPlay" then
    clearIfSet loadingTimeout ;;
    d <- gets (fun w => playerDuration (player w)) ;;
    updatePlaybackState
      {| u_isPlaying := None; u_currentTime := None; u_duration := Some d;
         u_isLoading := Some false; u_error := Some None |}
  else if String.eqb (status ev) "error" then
    updatePlaybackState
      {| u_isPlaying := Some false; u_currentTime := None; u_duration := None;
         u_isLoading := Some false;
         u_error := Some (Some (errorMessage (statusError ev))) |}
  else
    p <- gets player ;;
    updatePlaybackState
      {| u_isPlaying := Some (playing p);
         u_currentTime := Some (playerCurrentTime p);
         u_duration := Some (playerDuration p);
         u_isLoading := None; u_error := None |}.

(** The effect "Load saved position when player is ready", run when the
    component renders with [player.status === "readyToPlay"]. *)
Definition loadSavedPosition : Handler unit :=
  ready <- gets (fun w => String.eqb (playerStatus (player w)) "readyToPlay") ;;
  when ready
    (tryCatch
       (savedPosition <- getSavedPosition ;;
        when (0 <? savedPosition)
          (_ <- setTimeout (RestoreSavedPosition savedPosition) 200 ;; skip) ;;
        updatePlaybackState
          {| u_isPlaying := None; u_currentTime := None; u_duration := None;
             u_isLoading := Some false; u_error := None |})
       (updatePlaybackState
          {| u_isPlaying := None; u_currentTime := None; u_duration := None;
             u_isLoading := Some false; u_error := None |})).

(** The effect "Set up periodic progress updates". *)
Definition startProgressUpdates : Handler unit :=
  _ <- setInterval ProgressTick 1000 ;; skip.

(** *** VideoPlayer.tsx *)

Definition setFocusedControl (c : option Control) : Handler unit :=
  modify (set_focusedControl c).

Definition onClose : Handler unit :=
  modify (fun w => set_closeRequests (S (closeRequests w)) w).

Definition showControlsWithTimer : Handler unit :=
  modify (set_showControls true) ;;
  clearIfSet hideControlsTimeout ;;
  id <- setTimeout HideControls 3000 ;;
  modify (set_hideControlsTimeout (Some id)).

(** The body of each timer closure. *)
Definition runCallback (cb : Callback) : Handler unit :=
  match cb with
  | SeekCommit position =>
      tryCatch
        (call (SetCurrentTime position) ;;
         savePlaybackPosition position)
        (updatePlaybackState
           {| u_isPlaying := None; u_currentTime := None; u_duration := None;
              u_isLoading := None;
              u_error := Some (Some "Failed to seek to position") |})
  | SeekWithPauseCommit position =>
      call (SetCurrentTime position) ;;
      savePlaybackPosition position ;;
      resume <- gets wasPlayingBeforeSeek ;;
      when resume (_ <- setTimeout ResumeAfterSeek 300 ;; skip)
  | ResumeAfterSeek =>
      call Play ;;
      updatePlaybackState
        {| u_isPlaying := Some true; u_currentTime := None;
           u_duration := None; u_isLoading := None; u_error := None |}
  | LoadingTimedOut =>
      stillLoading <-
        gets (fun w => String.eqb (playerStatus (player w)) "loading") ;;
      when stillLoading
        (updatePlaybackState
           {| u_isPlaying := None; u_currentTime := None; u_duration := None;
              u_isLoading := Some false;
              u_error :=
                Some (Some "Video took too long to load. Please try again.") |})
  | RestoreSavedPosition savedPosition =>
      tryCatch (call (SetCurrentTime savedPosition)) skip
  | ProgressTick =>
      p <- gets player ;;
      when (playing p)
        (let t := playerCurrentTime p in
         showPosition t ;;
         when (Z.rem t 10 =? 0) (savePlaybackPosition t))
  | HideControls =>
      modify (set_showControls false)
  end.

(** *** The remote control *)

(** The event of [TVEventHandler]; [eventKeyAction] is 1 for a press. *)
Record RemoteEvent := mkRemoteEvent {
  eventType : string;
  eventKeyAction : Z
}.

Definition press (type : string) : RemoteEvent := mkRemoteEvent type 1.

(** [['back', 'seekBackward', 'playPause', 'seekForward']] *)
Definition controls : list Control :=
  [back; seekBackward; playPause; seekForward].

(** [Array.prototype.indexOf]: the first index holding the value, or -1. *)
Fixpoint indexOfFrom (i : Z) (l : list Control) (x : option Control) : Z :=
  match l with
  | [] => -1
  | c :: rest =>
      if decide (x = Some c) then i else indexOfFrom (i + 1) rest x
  end.

Definition indexOf (l : list Control) (x : option Control) : Z :=
  indexOfFrom 0 l x.

(** [l[i]]: [undefined] outside the array. *)
Definition elementAt (l : list Control) (i : Z) : option Control :=
  if i <? 0 then None else l !! Z.to_nat i.

Definition handleTVRemoteKey (evt : RemoteEvent) : Handler unit :=
  when (eventKeyAction evt =? 1)
    (focused <- gets focusedControl ;;
     st <- gets playbackState ;;
     let type := eventType evt in
     if String.eqb type "playPause" || String.eqb type "select" then
       match focused with
       | Some back => onClose
       | Some playPause => handlePlayPause
       | Some seekBackward => handleSeekBackward
       | Some seekForward => handleSeekForward
       | Some progress | None => skip
       end ;;
       showControlsWithTimer
     else if String.eqb type "left" then
       (if decide (focused = Some progress) then
          let newTime := Z.max 0 (currentTime st - 10) in
          handleSeek newTime
        else
          let currentIndex := indexOf controls focused in
          let newIndex := Z.max 0 (currentIndex - 1) in
          setFocusedControl (elementAt controls newIndex)) ;;
       showControlsWithTimer
     else if String.eqb type "right" then
       (if decide (focused = Some progress) then
          let newTime := Z.min (duration st) (currentTime st + 10) in
          handleSeek newTime
        else
          let currentIndex := indexOf controls focused in
          let newIndex := Z.min (Z.of_nat (length controls) - 1) (currentIndex + 1) in
          setFocusedControl (elementAt controls newIndex)) ;;
       showControlsWithTimer
     else if String.eqb type "up" then
       (if decide (focused = Some progress)
        then setFocusedControl (Some playPause)
        else setFocusedControl (Some back)) ;;
       showControlsWithTimer
     else if String.eqb type "down" then
       when (bool_decide (focused ≠ Some progress))
         (setFocusedControl (Some progress)) ;;
       showControlsWithTimer
     else if String.eqb type "menu" || String.eqb type "back" then
       onClose
     else
       showControlsWithTimer).

(** *** ProgressBar.tsx *)

(** [handleSeek] of the progress bar. [seekPosition] is the value of
    [(locationX / barWidth) * duration] for the press. *)
Definition ProgressBar_handleSeek (barDuration : Z)
    (onSeek : Z -> Handler unit) (seekPosition : Z) : Handler unit :=
  when (0 <? barDuration)
    (onSeek (Z.max 0 (Z.min barDuration seekPosition))).

(** A press on the bar as VideoPlayer renders it: [duration] is
    [playbackState.duration] and [onSeek] is [handleSeek]. *)
Definition pressProgressBar (seekPosition : Z) : Handler unit :=
  st <- gets playbackState ;;
  ProgressBar_handleSeek (duration st) handleSeek seekPosition.

(** *** Mounting the player *)

Definition initialWorld (p : P) (clock : Z) : World :=
  {| playbackState := initialPlaybackState;
     playbackPositions := ∅;
     player := p;
     commands := [];
     seekTimeout := None;
     wasPlayingBeforeSeek := false;
     loadingTimeout := None;
     showControls := true;
     focusedControl := Some playPause;
     hideControlsTimeout := None;
     closeRequests := 0%nat;
     now := clock;
     pending := [];
     nextTimerId := 1%positive |}.

(** The first render creates the player; the effects follow in the order
    of the hooks. *)
Definition mount : Handler unit :=
  configurePlayer ;;
  showSavedPosition ;;
  validateUrls ;;
  startLoadingTimeout ;;
  startProgressUpdates ;;
  loadSavedPosition.

(** *** The passing of time *)

Definition isPending (id : positive) (w : World) : bool :=
  existsb (fun t => Pos.eqb (timerId t) id) (pending w).

(** A timer that fires leaves the list, unless it is an interval, which
    is due again one period later. *)
Definition afterFiring (t : Timer) (l : list Timer) : list Timer :=
  match every t with
  | None => filter (fun t' => timerId t' ≠ timerId t) l
  | Some period =>
      map (fun t' =>
             if Pos.eqb (timerId t') (timerId t)
             then mkTimer (timerId t') (dueAt t' + period) (every t') (callback t')
             else t') l
  end.

Definition fire (t : Timer) : Handler unit :=
  stillPending <- gets (isPending (timerId t)) ;;
  when stillPending
    (modify (fun w => set_pending (afterFiring t (pending w)) w) ;;
     runCallback (callback t)).

(** The timers of [due] whose time has come, oldest first. An exception
    that leaves a callback ends the run. *)
Fixpoint runDue (due : list Timer) : Handler unit :=
  match due with
  | [] => skip
  | t :: rest =>
      t0 <- gets now ;;
      when (dueAt t <=? t0) (fire t) ;;
      runDue rest
  end.

(** One millisecond passes. *)
Definition tick : Handler unit :=
  modify (fun w => set_now (now w + 1) w) ;;
  due <- gets pending ;;
  runDue due.

Fixpoint elapse (ms : nat) : Handler unit :=
  match ms with
  | O => skip
  | S n => tick ;; elapse n
  end.

End Player.

(** ** A scripted player for concrete runs *)

(** How a scripted player answers every command: it takes note and
    changes its properties later, it changes them before returning, or it
    throws. *)
Inductive Manner := Deferred | Immediate | Broken.

Record TestPlayer (m : Manner) := mkTestPlayer {
  tp_playing : bool;
  tp_currentTime : Z;
  tp_duration : Z;
  tp_status : string
}.
Arguments tp_playing {m} _.
Arguments tp_currentTime {m} _.
Arguments tp_duration {m} _.
Arguments tp_status {m} _.

Definition applyCommand {m} (c : Command) (p : TestPlayer m) : TestPlayer m :=
  match c with
  | Play => mkTestPlayer m true (tp_currentTime p) (tp_duration p) (tp_status p)
  | Pause => mkTestPlayer m false (tp_currentTime p) (tp_duration p) (tp_status p)
  | SetCurrentTime t => mkTestPlayer m (tp_playing p) t (tp_duration p) (tp_status p)
  | Replace _ => mkTestPlayer m false 0 0 "loading"
  | SetLoop _ | SetAllowsExternalPlayback _ | SetMuted _ => p
  end.

Global Instance TestPlayer_Primitive (m : Manner) : Primitive (TestPlayer m) := {|
  playing := tp_playing;
  playerCurrentTime := tp_currentTime;
  playerDuration := tp_duration;
  playerStatus := tp_status;
  perform c p :=
    match m with
    | Deferred => Returned p
    | Immediate => Returned (applyCommand c p)
    | Broken => Thrown p
    end
|}.

(** A two-minute video, loaded and playing or paused. *)
Definition testPlayer (m : Manner) (isPlayingNow : bool) : TestPlayer m :=
  mkTestPlayer m isPlayingNow 20 120 "readyToPlay".

(** The world a while after mounting on a loaded video: nothing pending. *)
Definition testWorld (m : Manner) (isPlayingNow : bool) : @World (TestPlayer m) :=
  set_playbackState
    {| isPlaying := isPlayingNow; currentTime := 20; duration := 120;
       isLoading := false; error := Some None |}
    (initialWorld (testPlayer m isPlayingNow) 1000).

(** A sequence of [updatePlaybackState] calls. *)
Fixpoint updateCalls {P} (calls : list PlaybackUpdates) : Action (@World P) unit :=
  match calls with
  | [] => skip
  | u :: rest => updatePlaybackState u ;; updateCalls rest
  end.

(** The command [handlePlayPause] sends: [pause] to a playing player,
    [play] to a paused one. *)
Definition toggleCommand {P} `{Primitive P} (w : @World P) : Command :=
  if playing (player w) then Pause else Play.

(** The pending timers once the timer a ref points to, if any, is
    cleared. *)
Definition withoutTimer (ref : option positive) (l : list Timer) : list Timer :=
  match ref with
  | Some id => filter (fun t => timerId t ≠ id) l
  | None => l
  end.

(** A command that never throws, whatever the state of the player. *)
Definition returns {P} `{Primitive P} (c : Command) : Prop :=
  forall p : P, exists p', perform c p = Returned p'.

(** What every entry written by [savePlaybackPosition] satisfies: it sits
    under its own id and its position is above the 30-second threshold. *)
Definition storeOk (m : gmap string PlaybackPosition) : Prop :=
  forall id e, m !! id = Some e -> 30 < position e /\ videoId_of e = id.

(** ** More of the code *)

(** *** useVideoHandler.ts and VideoPlayer.tsx : unmounting *)

(** The effect "Cleanup timeouts on unmount" of useVideoHandler. *)
Definition cleanupTimeouts {P} : Action (@World P) unit :=
  clearIfSet seekTimeout ;;
  clearIfSet loadingTimeout.

(** The clean-up of the last effect of VideoPlayer. *)
Definition cleanupHideControls {P} : Action (@World P) unit :=
  clearIfSet hideControlsTimeout.

(** The clean-ups that run when the player screen unmounts, in the order
    of their effects; [interval] is the handle [setInterval] returned to
    the effect "Set up periodic progress updates". *)
Definition unmount {P} (interval : positive) : Action (@World P) unit :=
  clearIfSet loadingTimeout ;;
  clearTimeout interval ;;
  cleanupTimeouts ;;
  cleanupHideControls.

(** *** VideoPlayer.tsx : the error screen *)

Global Instance ErrorPayload_eq_dec : EqDecision ErrorPayload.
Proof. solve_decision. Defined.

(** The player screen: the hook's state, [isRetrying], and how often the
    [onError] prop was called. *)
Record PlayerScreen {P : Type} := mkPlayerScreen {
  world : @World P;
  isRetrying : bool;
  errorReports : nat
}.
Arguments PlayerScreen P : clear implicits.

(** [handleTryAgain]: [isRetrying] is set, [handleRetry] runs, and
    [isRetrying] is reset on both paths; the [catch] calls [onError]. *)
Definition handleTryAgain {P} `{Primitive P} (url hlsUrl : string) (isTV : bool)
    (s : PlayerScreen P) : PlayerScreen P :=
  match handleRetry url hlsUrl isTV (world s) with
  | Ok _ w' => mkPlayerScreen P w' false (errorReports s)
  | Uncaught w' => mkPlayerScreen P w' false (S (errorReports s))
  end.

(** [playbackState.error && !isRetrying], the test for the error screen. *)
Definition showsErrorScreen {P} (s : PlayerScreen P) : bool :=
  match error (playbackState (world s)) with
  | Some (Some message) => negb (falsy message) && negb (isRetrying s)
  | _ => false
  end.

(** *** useVideoData.ts *)

(** The value imported from videos.json. *)
#[warnings="-register-all"]
Inductive Json :=
| JNull
| JBool (b : bool)
| JNumber (n : Z)
| JString (s : string)
| JArray (items : list Json)
| JObject (fields : list (string * Json)).

(** A JavaScript object read from JSON: its keys, each once, with their
    values. *)
Abbreviation Obj := (list (string * Json)).

(** [o[key]]: the value under the key, [None] for [undefined]. *)
Fixpoint lookupField (key : string) (o : Obj) : option Json :=
  match o with
  | [] => None
  | (k, v) :: rest => if String.eqb k key then Some v else lookupField key rest
  end.

(** Truthiness of a JSON value. *)
Definition truthy (j : Json) : bool :=
  match j with
  | JNull => false
  | JBool b => b
  | JNumber n => negb (n =? 0)
  | JString s => negb (falsy s)
  | JArray _ | JObject _ => true
  end.

Definition truthyField (key : string) (o : Obj) : bool :=
  match lookupField key o with
  | Some j => truthy j
  | None => false
  end.

(** [video.id && video.title && video.thumbnail && video.url &&
    video.hlsUrl], as the filter reads it. *)
Definition isValidVideo (o : Obj) : bool :=
  truthyField "id" o && truthyField "title" o && truthyField "thumbnail" o
  && truthyField "url" o && truthyField "hlsUrl" o.

(** [videosData.filter(...)]. Reading a property of [null] throws, which
    ends the filter: [None]. A number, a string, a boolean or an array has
    none of the five properties, so it is dropped. *)
Fixpoint filterValid (items : list Json) : option (list Obj) :=
  match items with
  | [] => Some []
  | JNull :: _ => None
  | JObject o :: rest =>
      match filterValid rest with
      | Some valid => Some (if isValidVideo o then o :: valid else valid)
      | None => None
      end
  | _ :: rest => filterValid rest
  end.

Module VideoData.

(** The four [useState] cells of the hook. *)
Record t := mk {
  videos : list Obj;
  favorites : gset string;
  isLoading : bool;
  error : option string
}.

Definition initial : t :=
  {| videos := []; favorites := ∅; isLoading := true; error := None |}.

(** [loadVideos] up to its [await]. *)
Definition loadVideos_start (st : t) : t :=
  {| videos := videos st; favorites := favorites st;
     isLoading := true; error := None |}.

(** [loadVideos] after the [await]: the [try] with its [catch] and
    [finally]. [typeErrorMessage] is the message of the engine's
    TypeError for a property read on [null]. *)
Definition loadVideos_finish (typeErrorMessage : string) (videosData : Json)
    (st : t) : t :=
  match videosData with
  | JArray items =>
      match filterValid items with
      | Some [] =>
          {| videos := videos st; favorites := favorites st;
             isLoading := false; error := Some "No valid videos found" |}
      | Some validatedVideos =>
          {| videos := validatedVideos; favorites := favorites st;
             isLoading := false; error := None |}
      | None =>
          {| videos := videos st; favorites := favorites st;
             isLoading := false; error := Some typeErrorMessage |}
      end
  | _ =>
      {| videos := videos st; favorites := favorites st;
         isLoading := false; error := Some "Invalid video data format" |}
  end.

Definition loadVideos (typeErrorMessage : string) (videosData : Json)
    (st : t) : t :=
  loadVideos_finish typeErrorMessage videosData (loadVideos_start st).

Definition loadFavorites (st : t) : t :=
  {| videos := videos st; favorites := ∅;
     isLoading := isLoading st; error := error st |}.

Definition toggleFavorite (videoId : string) (st : t) : t :=
  {| videos := videos st;
     favorites :=
       if decide (videoId ∈ favorites st)
       then favorites st ∖ {[videoId]}
       else favorites st ∪ {[videoId]};
     isLoading := isLoading st; error := error st |}.

Definition isFavorite (videoId : string) (st : t) : bool :=
  bool_decide (videoId ∈ favorites st).



End VideoData.

(** *** app/index.tsx : the hero banner *)

(** [focusedVideo || videos.find(video => video.hero) || videos[0]] *)
Definition heroVideo (focusedVideo : option Obj) (videos : list Obj)
  : option Obj :=
  match focusedVideo with
  | Some video => Some video
  | None =>
      match List.find (truthyField "hero") videos with
      | Some video => Some video
      | None => head videos
      end
  end.

(** The effect that focuses a first video once the list is loaded. *)
Definition focusInitialVideo (focusedVideo : option Obj) (videos : list Obj)
  : option Obj :=
  if (0 <? Z.of_nat (length videos)) && negb (bool_decide (is_Some focusedVideo))
  then match List.find (truthyField "hero") videos with
       | Some video => Some video
       | None => head videos
       end
  else focusedVideo.

(** *** Sample data for concrete runs *)

(** An entry as videos.json writes it, with or without a hero image. *)
Definition sampleVideo (id : string) (withHero : bool) : Obj :=
  [("id", JString id); ("title", JString "A title");
   ("thumbnail", JString "thumb.jpg");
   ("hero", if withHero then JString "hero.jpg" else JString "");
   ("url", JString "video.mp4"); ("hlsUrl", JString "video.m3u8")].


(** * Properties *)

(** ** The reducer *)

Lemma spread_twice (s : PlaybackState) (u : PlaybackUpdates) :
  spread (spread s u) u = spread s u.
Proof.
  destruct s, u as [a b c d e]; unfold spread; cbn.
  destruct a, b, c, d, e; reflexivity.
Qed.

Section Reducer.

Context {P : Type}.
Implicit Types (w : @World P) (calls : list PlaybackUpdates).

Lemma updateCalls_total calls w :
  exists w', updateCalls calls w = Ok tt w'.
Proof.
  revert w; induction calls as [|u rest IH]; intros w; cbn.
  - eexists; reflexivity.
  - apply IH.
Qed.

Lemma updateCalls_field {A} (get : PlaybackState -> A)
    (field : PlaybackUpdates -> option A) :
  (forall s u, get (spread s u) = default (get s) (field u)) ->
  forall calls w w',
    updateCalls calls w = Ok tt w' ->
    get (playbackState w') =
      default (get (playbackState w)) (lastProvided field calls).
Proof.
  intros Hspread calls; induction calls as [|u rest IH]; intros w w' Hrun.
  - cbn in Hrun. injection Hrun as <-. reflexivity.
  - cbn in Hrun. apply IH in Hrun. rewrite Hrun. cbn.
    destruct (lastProvided field rest); cbn; [reflexivity|].
    apply Hspread.
Qed.

(** C7. After any sequence of [updatePlaybackState] calls, each field of
    the playback state holds the value given by the last call that
    provided it, and a field that no call provided holds the value it had
    before the first call. For [error], a call that passes [undefined]
    provides the field. *)
Theorem C7_last_write_wins calls w :
  exists w',
    updateCalls calls w = Ok tt w' /\
    let s0 := playbackState w in
    let s := playbackState w' in
    isPlaying s = default (isPlaying s0) (lastProvided u_isPlaying calls) /\
    currentTime s = default (currentTime s0) (lastProvided u_currentTime calls) /\
    duration s = default (duration s0) (lastProvided u_duration calls) /\
    isLoading s = default (isLoading s0) (lastProvided u_isLoading calls) /\
    error s = default (error s0) (Some <$> lastProvided u_error calls).
Proof.
  destruct (updateCalls_total calls w) as [w' Hrun].
  exists w'; split; [exact Hrun|]. cbn zeta.
  repeat split.
  - apply (updateCalls_field isPlaying u_isPlaying); [reflexivity|exact Hrun].
  - apply (updateCalls_field currentTime u_currentTime); [reflexivity|exact Hrun].
  - apply (updateCalls_field duration u_duration); [reflexivity|exact Hrun].
  - apply (updateCalls_field isLoading u_isLoading); [reflexivity|exact Hrun].
  - assert (Hspread : forall s u,
      error (spread s u) = default (error s) (Some <$> u_error u))
      by (intros s u; cbn; destruct (u_error u); reflexivity).
    rewrite (updateCalls_field error _ Hspread calls w w' Hrun).
    f_equal. clear. induction calls as [|u rest IH]; cbn; [reflexivity|].
    rewrite IH. destruct (lastProvided u_error rest); reflexivity.
Qed.

End Reducer.

(** ** The saved positions *)

Section SavedPositions.

Implicit Types (m : gmap string PlaybackPosition) (id : string).

Lemma save_short now id p m : p <= 30 -> Store.save now id p m = m.
Proof.
  intros Hp. unfold Store.save.
  destruct (30 <? p) eqn:E; [apply Z.ltb_lt in E; lia | reflexivity].
Qed.

Lemma save_long now id p m :
  30 < p ->
  Store.save now id p m = <[id := mkPosition id p now]> m.
Proof.
  intros Hp. unfold Store.save.
  destruct (30 <? p) eqn:E; [reflexivity | apply Z.ltb_ge in E; lia].
Qed.

Lemma get_recent now id m e :
  m !! id = Some e -> now - timestamp e < dayMs ->
  Store.get now id m = position e.
Proof.
  intros Hm Hage. unfold Store.get. rewrite Hm. cbn zeta.
  destruct (now - timestamp e <? dayMs) eqn:E;
    [reflexivity | apply Z.ltb_ge in E; lia].
Qed.

Lemma get_stale now id m e :
  m !! id = Some e -> dayMs <= now - timestamp e ->
  Store.get now id m = 0.
Proof.
  intros Hm Hage. unfold Store.get. rewrite Hm. cbn zeta.
  destruct (now - timestamp e <? dayMs) eqn:E;
    [apply Z.ltb_lt in E; lia | reflexivity].
Qed.

Lemma get_absent now id m : m !! id = None -> Store.get now id m = 0.
Proof. intros Hm. unfold Store.get. rewrite Hm. reflexivity. Qed.

(** C6. For every content id: a save of a position of at most 30 leaves
    the store as it was and a save of a larger position records it with
    the time of the save; a lookup gives the recorded position when an
    entry exists and is less than 24 hours old, and 0 when there is no
    entry or the entry is 24 hours old or older. So with no entry for the
    id, save 25 then get gives 0; save 45 then get at once gives 45; and a
    get more than 24 hours after that save gives 0. *)
Theorem C6_saved_positions id :
  (forall now p m, p <= 30 -> Store.save now id p m = m) /\
  (forall now p m, 30 < p ->
     Store.save now id p m !! id = Some (mkPosition id p now)) /\
  (forall now m e, m !! id = Some e -> now - timestamp e < dayMs ->
     Store.get now id m = position e) /\
  (forall now m, m !! id = None -> Store.get now id m = 0) /\
  (forall now m e, m !! id = Some e -> dayMs <= now - timestamp e ->
     Store.get now id m = 0) /\
  (forall now later m, m !! id = None ->
     Store.get later id (Store.save now id 25 m) = 0) /\
  (forall now m, Store.get now id (Store.save now id 45 m) = 45) /\
  (forall now later m, dayMs < later - now ->
     Store.get later id (Store.save now id 45 m) = 0).
Proof.
  refine (conj _ (conj _ (conj _ (conj _ (conj _ (conj _ (conj _ _))))))).
  - intros. by apply save_short.
  - intros now p m Hp. rewrite save_long by done. apply lookup_insert_eq.
  - intros. by eapply get_recent.
  - intros. by apply get_absent.
  - intros. by eapply get_stale.
  - intros now later m Hm. rewrite save_short by lia. by apply get_absent.
  - intros now m. rewrite save_long by lia.
    erewrite get_recent; [| apply lookup_insert_eq |]; cbn; [reflexivity|].
    unfold dayMs; lia.
  - intros now later m Hage. rewrite save_long by lia.
    eapply get_stale; [apply lookup_insert_eq|]. cbn. lia.
Qed.

(** The two handlers of the hook are these functions at the clock of the
    world. *)
Lemma savePlaybackPosition_store {P} videoId p (w : @World P) :
  savePlaybackPosition videoId p w =
    Ok tt (set_playbackPositions
             (Store.save (now w) videoId p (playbackPositions w)) w).
Proof. reflexivity. Qed.

Lemma getSavedPosition_store {P} videoId (w : @World P) :
  getSavedPosition videoId w =
    Ok (Store.get (now w) videoId (playbackPositions w)) w.
Proof. reflexivity. Qed.

(** A store with nothing for ["v1"], and a first save at time 5000. *)
Lemma C6_saved_positions_witness :
  Store.get 5000 "v1" (Store.save 5000 "v1" 25 ∅) = 0 /\
  Store.get 5000 "v1" (Store.save 5000 "v1" 45 ∅) = 45 /\
  Store.get (5000 + dayMs + 1) "v1" (Store.save 5000 "v1" 45 ∅) = 0 /\
  Store.save 5000 "v1" 25 ∅ = ∅ /\
  Store.save 5000 "v1" 45 ∅ !! "v1" = Some (mkPosition "v1" 45 5000) /\
  Store.get 6000 "v1" (<["v1" := mkPosition "v1" 45 5000]> ∅) = 45 /\
  Store.get (5000 + dayMs) "v1" (<["v1" := mkPosition "v1" 45 5000]> ∅) = 0.
Proof.
  pose proof (C6_saved_positions "v1") as (A & B & C & D & E & F & G & I).
  refine (conj _ (conj _ (conj _ (conj _ (conj _ (conj _ _)))))).
  - apply F. apply lookup_empty.
  - apply G.
  - apply I. lia.
  - apply A. lia.
  - apply B. lia.
  - apply (C 6000 _ (mkPosition "v1" 45 5000)).
    + apply lookup_insert_eq.
    + cbn. unfold dayMs. lia.
  - apply (E _ _ (mkPosition "v1" 45 5000)).
    + apply lookup_insert_eq.
    + cbn. lia.
Defined.

End SavedPositions.

(** ** Focus *)

Section Focus.

Context {P : Type} `{Primitive P}.
Implicit Types (w : @World P).

(** Showing the controls always returns and moves neither the focus nor
    the playback state nor the player. *)
Lemma showControlsWithTimer_spec w :
  exists w',
    showControlsWithTimer w = Ok tt w' /\
    focusedControl w' = focusedControl w /\
    playbackState w' = playbackState w /\
    player w' = player w /\
    commands w' = commands w /\
    seekTimeout w' = seekTimeout w /\
    now w' = now w.
Proof.
  unfold showControlsWithTimer, clearIfSet, bind, gets, modify; cbn.
  destruct (hideControlsTimeout w); cbn; eexists; split; try reflexivity;
    repeat split.
Qed.

Lemma handleTVRemoteKey_left w :
  focusedControl w <> Some progress ->
  handleTVRemoteKey (press "left") w =
    (setFocusedControl
       (elementAt controls (Z.max 0 (indexOf controls (focusedControl w) - 1))) ;;
     showControlsWithTimer) w.
Proof.
  intros Hfocus.
  unfold handleTVRemoteKey, press, when, bind, gets;
    cbn -[indexOf elementAt showControlsWithTimer handleSeek].
  destruct (decide (focusedControl w = Some progress)); [contradiction|].
  reflexivity.
Qed.

Lemma handleTVRemoteKey_right w :
  focusedControl w <> Some progress ->
  handleTVRemoteKey (press "right") w =
    (setFocusedControl
       (elementAt controls
          (Z.min (Z.of_nat (length controls) - 1)
                 (indexOf controls (focusedControl w) + 1))) ;;
     showControlsWithTimer) w.
Proof.
  intros Hfocus.
  unfold handleTVRemoteKey, press, when, bind, gets;
    cbn -[indexOf elementAt showControlsWithTimer handleSeek controls].
  destruct (decide (focusedControl w = Some progress)); [contradiction|].
  reflexivity.
Qed.

(** With the progress bar focused the same keys seek, through
    [handleSeek]. *)
Lemma handleTVRemoteKey_left_progress w :
  focusedControl w = Some progress ->
  handleTVRemoteKey (press "left") w =
    (handleSeek (Z.max 0 (currentTime (playbackState w) - 10)) ;;
     showControlsWithTimer) w.
Proof.
  intros Hfocus.
  unfold handleTVRemoteKey, press, when, bind, gets;
    cbn -[indexOf elementAt showControlsWithTimer handleSeek].
  destruct (decide (focusedControl w = Some progress)); [|contradiction].
  reflexivity.
Qed.

Lemma handleTVRemoteKey_right_progress w :
  focusedControl w = Some progress ->
  handleTVRemoteKey (press "right") w =
    (handleSeek (Z.min (duration (playbackState w))
                       (currentTime (playbackState w) + 10)) ;;
     showControlsWithTimer) w.
Proof.
  intros Hfocus.
  unfold handleTVRemoteKey, press, when, bind, gets;
    cbn -[indexOf elementAt showControlsWithTimer handleSeek].
  destruct (decide (focusedControl w = Some progress)); [|contradiction].
  reflexivity.
Qed.

Lemma setFocus_then_show (c : option Control) w :
  exists w',
    (setFocusedControl c ;; showControlsWithTimer) w = Ok tt w' /\
    focusedControl w' = c.
Proof.
  unfold bind, setFocusedControl, modify.
  destruct (showControlsWithTimer_spec (set_focusedControl c w))
    as (w' & Hrun & Hfocus & _).
  exists w'. split; [exact Hrun | exact Hfocus].
Qed.

Lemma left_moves w (c : option Control) :
  focusedControl w = c -> c <> Some progress ->
  exists w',
    handleTVRemoteKey (press "left") w = Ok tt w' /\
    focusedControl w' = elementAt controls (Z.max 0 (indexOf controls c - 1)).
Proof.
  intros <- Hc. rewrite handleTVRemoteKey_left by exact Hc.
  apply setFocus_then_show.
Qed.

Lemma right_moves w (c : option Control) :
  focusedControl w = c -> c <> Some progress ->
  exists w',
    handleTVRemoteKey (press "right") w = Ok tt w' /\
    focusedControl w' =
      elementAt controls
        (Z.min (Z.of_nat (length controls) - 1) (indexOf controls c + 1)).
Proof.
  intros <- Hc. rewrite handleTVRemoteKey_right by exact Hc.
  apply setFocus_then_show.
Qed.

(** C8. With [playPause] focused, a press of left moves the focus to
    [seekBackward], a second one to [back], and a third one leaves it on
    [back]. *)
Theorem C8_left_from_playPause w :
  focusedControl w = Some playPause ->
  exists w1 w2 w3,
    handleTVRemoteKey (press "left") w = Ok tt w1 /\
    focusedControl w1 = Some seekBackward /\
    handleTVRemoteKey (press "left") w1 = Ok tt w2 /\
    focusedControl w2 = Some back /\
    handleTVRemoteKey (press "left") w2 = Ok tt w3 /\
    focusedControl w3 = Some back.
Proof.
  intros H0.
  destruct (left_moves w _ H0) as (w1 & R1 & F1); [discriminate|].
  change (focusedControl w1 = Some seekBackward) in F1.
  destruct (left_moves w1 _ F1) as (w2 & R2 & F2); [discriminate|].
  change (focusedControl w2 = Some back) in F2.
  destruct (left_moves w2 _ F2) as (w3 & R3 & F3); [discriminate|].
  change (focusedControl w3 = Some back) in F3.
  exists w1, w2, w3. auto 10.
Qed.

(** C10. With no control focused, [indexOf] gives -1, and a press of left
    as well as a press of right puts the focus on [back]. *)
Theorem C10_left_right_without_focus w :
  focusedControl w = None ->
  indexOf controls None = -1 /\
  (exists w', handleTVRemoteKey (press "left") w = Ok tt w' /\
              focusedControl w' = Some back) /\
  (exists w', handleTVRemoteKey (press "right") w = Ok tt w' /\
              focusedControl w' = Some back).
Proof.
  intros H0. split; [reflexivity|]. split.
  - destruct (left_moves w _ H0) as (w' & R & F); [discriminate|].
    exists w'. split; [exact R | exact F].
  - destruct (right_moves w _ H0) as (w' & R & F); [discriminate|].
    exists w'. split; [exact R | exact F].
Qed.

End Focus.

(** The player as it opens, paused, with [playPause] focused. *)
Lemma C8_left_from_playPause_witness :
  exists w1 w2 w3,
    handleTVRemoteKey (press "left") (testWorld Deferred false) = Ok tt w1 /\
    focusedControl w1 = Some seekBackward /\
    handleTVRemoteKey (press "left") w1 = Ok tt w2 /\
    focusedControl w2 = Some back /\
    handleTVRemoteKey (press "left") w2 = Ok tt w3 /\
    focusedControl w3 = Some back.
Proof. apply C8_left_from_playPause. reflexivity. Defined.

Lemma C10_left_right_without_focus_witness :
  let w := set_focusedControl None (testWorld Deferred false) in
  indexOf controls None = -1 /\
  (exists w', handleTVRemoteKey (press "left") w = Ok tt w' /\
              focusedControl w' = Some back) /\
  (exists w', handleTVRemoteKey (press "right") w = Ok tt w' /\
              focusedControl w' = Some back).
Proof. apply C10_left_right_without_focus. reflexivity. Defined.

(** ** Status events *)

Section Status.

Context {P : Type} `{Primitive P}.
Implicit Types (w : @World P).

(** C9. An [idle] status event, whatever it carries, returns; a second
    one right after it returns too and leaves the whole state, the playback
    state included, exactly as the first one left it. *)
Theorem C9_idle_twice (payload : ErrorPayload) w :
  let idle := mkStatusChange "idle" payload in
  exists w1,
    onStatusChange idle w = Ok tt w1 /\
    onStatusChange idle w1 = Ok tt w1 /\
    playbackState w1 =
      {| isPlaying := false;
         currentTime := currentTime (playbackState w);
         duration := duration (playbackState w);
         isLoading := false;
         error := Some None |}.
Proof.
  cbn zeta. eexists. split; [reflexivity|]. split.
  - unfold onStatusChange, updatePlaybackState, modify, set_playbackState; cbn.
    reflexivity.
  - reflexivity.
Qed.

End Status.

(** ** Initialisation *)

Section Initialisation.

Context {P : Type} `{Primitive P}.
Implicit Types (w : @World P).

Lemma falsy_nonempty (s : string) : s <> "" -> falsy s = false.
Proof. intros Hs. unfold falsy. by apply String.eqb_neq. Qed.

(** With at least one of the two URLs the check changes nothing. *)
Lemma validateUrls_one_present url hlsUrl w :
  url <> "" \/ hlsUrl <> "" -> validateUrls url hlsUrl w = Ok tt w.
Proof.
  intros [Hu | Hh]; unfold validateUrls.
  - rewrite (falsy_nonempty url) by exact Hu. reflexivity.
  - rewrite (falsy_nonempty hlsUrl) by exact Hh.
    rewrite andb_false_r. reflexivity.
Qed.

(** C1, amended. When both [url] and [hlsUrl] are empty the check sets
    [error] to "No valid video URL provided" and [isLoading] to false at
    once. When [url] is empty and [hlsUrl] is not, the check leaves the
    state as it is, and off a TV the empty [url] is the source the player
    is created with. *)
Theorem C1_url_validation w :
  (exists w',
     validateUrls "" "" w = Ok tt w' /\
     error (playbackState w') = Some (Some "No valid video URL provided") /\
     isLoading (playbackState w') = false) /\
  (forall hlsUrl, hlsUrl <> "" ->
     validateUrls "" hlsUrl w = Ok tt w /\
     videoSource "" hlsUrl false = "").
Proof.
  split.
  - eexists. split; [reflexivity|]. split; reflexivity.
  - intros hlsUrl Hh. split; [|reflexivity].
    apply validateUrls_one_present. right; exact Hh.
Qed.

End Initialisation.

(** A player that is still loading when the component mounts. *)
Lemma C1_url_validation_witness :
  let w := initialWorld (mkTestPlayer Deferred false 0 0 "loading") 0 in
  validateUrls "" "https://x/hls.m3u8" w = Ok tt w /\
  videoSource "" "https://x/hls.m3u8" false = "".
Proof.
  intros w.
  destruct (C1_url_validation w) as [_ Hwarn].
  apply Hwarn. discriminate.
Defined.

(** The scenario of the specification: [url] empty, [hlsUrl] given, not a
    TV. After mounting, the playback state is the initial one: still
    loading, no error. *)
Lemma C1_counterexample :
  let w := initialWorld (mkTestPlayer Deferred false 0 0 "loading") 0 in
  let s := playbackState (finalWorld (mount "v1" "" "https://x/hls.m3u8" w)) in
  videoSource "" "https://x/hls.m3u8" false = "" /\
  s = initialPlaybackState /\
  ~ (error s = Some (Some "No valid video URL provided") /\
     isLoading s = false).
Proof.
  cbn zeta. split; [reflexivity|]. split; [vm_compute; reflexivity|].
  vm_compute. intros [E _]. discriminate E.
Qed.

(** ** Play and pause *)

Section PlayPause.

Context {P : Type} `{Primitive P}.
Implicit Types (w : @World P).

Lemma handlePlayPause_returned w p' :
  perform (toggleCommand w) (player w) = Returned p' ->
  handlePlayPause w =
    Ok tt (set_playbackState
             (spread (playbackState w)
                {| u_isPlaying := Some (negb (playing p'));
                   u_currentTime := None; u_duration := None;
                   u_isLoading := None; u_error := None |})
             (set_player p' (set_commands (commands w ++ [toggleCommand w]) w))).
Proof.
  unfold toggleCommand, handlePlayPause, tryCatch, bind, gets, call.
  intros Hperf. destruct (playing (player w)); rewrite Hperf; reflexivity.
Qed.

Lemma handlePlayPause_thrown w p' :
  perform (toggleCommand w) (player w) = Thrown p' ->
  handlePlayPause w =
    Ok tt (set_playbackState
             (spread (playbackState w)
                {| u_isPlaying := None; u_currentTime := None;
                   u_duration := None; u_isLoading := None;
                   u_error := Some (Some "Failed to control video playback") |})
             (set_player p' (set_commands (commands w ++ [toggleCommand w]) w))).
Proof.
  unfold toggleCommand, handlePlayPause, tryCatch, bind, gets, call.
  intros Hperf. destruct (playing (player w)); rewrite Hperf; reflexivity.
Qed.

(** C4, amended. [handlePlayPause] sends [pause] to a playing player and
    [play] to a paused one. If the command returns, [isPlaying] becomes the
    negation of the player's [playing] as read after the command returned;
    that is the negation of the value before the toggle whenever the
    command has not changed [playing] by the time it returns. If the
    command throws, [isPlaying] keeps its value and [error] becomes
    "Failed to control video playback". *)
Theorem C4_playPause w :
  (forall p', perform (toggleCommand w) (player w) = Returned p' ->
     exists w',
       handlePlayPause w = Ok tt w' /\
       commands w' = commands w ++ [toggleCommand w] /\
       isPlaying (playbackState w') = negb (playing p') /\
       (playing p' = playing (player w) ->
        isPlaying (playbackState w') = negb (playing (player w)))) /\
  (forall p', perform (toggleCommand w) (player w) = Thrown p' ->
     exists w',
       handlePlayPause w = Ok tt w' /\
       commands w' = commands w ++ [toggleCommand w] /\
       isPlaying (playbackState w') = isPlaying (playbackState w) /\
       error (playbackState w') =
         Some (Some "Failed to control video playback")).
Proof.
  split; intros p' Hperf.
  - eexists. split; [apply handlePlayPause_returned; exact Hperf|].
    cbn. split; [reflexivity|]. split; [reflexivity|].
    intros ->; reflexivity.
  - eexists. split; [apply handlePlayPause_thrown; exact Hperf|].
    cbn. auto.
Qed.

End PlayPause.

(** A playing player that reports [playing] later, and a paused one that
    throws. *)
Lemma C4_playPause_witness :
  (exists w',
     handlePlayPause (testWorld Deferred true) = Ok tt w' /\
     commands w' = [Pause] /\
     isPlaying (playbackState w') = false) /\
  (exists w',
     handlePlayPause (testWorld Broken false) = Ok tt w' /\
     commands w' = [Play] /\
     isPlaying (playbackState w') = false /\
     error (playbackState w') = Some (Some "Failed to control video playback")).
Proof.
  split.
  - destruct (C4_playPause (testWorld Deferred true)) as [Hret _].
    destruct (Hret (testPlayer Deferred true) eq_refl) as (w' & R & C & _ & I).
    exists w'. split; [exact R|]. split; [exact C|]. apply I. reflexivity.
  - destruct (C4_playPause (testWorld Broken false)) as [_ Hthrow].
    destruct (Hthrow (testPlayer Broken false) eq_refl) as (w' & R & C & I & E).
    exists w'. auto.
Defined.

(** Two runs against the claim as first stated. A paused player whose
    [play] throws: [isPlaying] stays false, not the negation of the
    [playing] before the toggle. A paused player that sets [playing]
    before [play] returns: [isPlaying] is set to false, the opposite of
    what the player now does. *)
Lemma C4_counterexample :
  (let w := testWorld Broken false in
   playing (player w) = false /\
   isPlaying (playbackState (finalWorld (handlePlayPause w))) <>
     negb (playing (player w))) /\
  (let w := testWorld Immediate false in
   playing (player w) = false /\
   isPlaying (playbackState (finalWorld (handlePlayPause w))) <>
     negb (playing (player w))).
Proof. split; cbn zeta; (split; [reflexivity | vm_compute; discriminate]). Qed.

(** ** Time *)

Section Time.

Context {P : Type} `{Primitive P}.
Variable videoId : string.
Implicit Types (w : @World P) (t : Timer) (l : list Timer).

Lemma set_now_same w : set_now (now w) w = w.
Proof. destruct w; reflexivity. Qed.

Lemma set_now_twice a b w : set_now b (set_now a w) = set_now b w.
Proof. reflexivity. Qed.

(** Timers whose time has not come do not run. *)
Lemma runDue_none_due l w :
  Forall (fun t => now w < dueAt t) l ->
  runDue videoId l w = Ok tt w.
Proof.
  induction 1 as [|t l Ht _ IH]; [reflexivity|].
  cbn [runDue]. unfold bind at 1, gets at 1.
  replace (dueAt t <=? now w) with false by (symmetry; apply Z.leb_gt; lia).
  exact IH.
Qed.

Lemma elapse_quiet (n : nat) w :
  Forall (fun t => now w + Z.of_nat n < dueAt t) (pending w) ->
  elapse videoId n w = Ok tt (set_now (now w + Z.of_nat n) w).
Proof.
  revert w; induction n as [|n IH]; intros w Hq.
  - cbn. rewrite Z.add_0_r, set_now_same. reflexivity.
  - cbn [elapse]. unfold bind at 1, tick, bind at 1, modify at 1.
    unfold bind at 1, gets at 1.
    change (pending (set_now (now w + 1) w)) with (pending w).
    rewrite runDue_none_due.
    + rewrite IH.
      * cbn [now set_now]. rewrite set_now_twice. do 2 f_equal. lia.
      * cbn [now pending set_now].
        eapply Forall_impl; [exact Hq|]. cbn. intros; lia.
    + cbn [now set_now]. eapply Forall_impl; [exact Hq|]. cbn. intros; lia.
Qed.

Lemma elapse_add (n m : nat) w :
  elapse videoId (n + m) w = (elapse videoId n ;; elapse videoId m) w.
Proof.
  revert w; induction n as [|n IH]; intros w; [reflexivity|].
  cbn [Nat.add elapse]. unfold bind.
  destruct (tick videoId w) as [[] w1 | w1]; [|reflexivity].
  rewrite IH. reflexivity.
Qed.

Lemma bind_skip (m : Action World unit) w : (m ;; skip) w = m w.
Proof. unfold bind, skip, ret. destruct (m w) as [[] w'|w']; reflexivity. Qed.

Lemma runDue_app l1 l2 w :
  runDue videoId (l1 ++ l2) w = (runDue videoId l1 ;; runDue videoId l2) w.
Proof.
  revert w; induction l1 as [|t l1 IH]; intros w; [reflexivity|].
  cbn [app runDue]. unfold bind, gets.
  destruct (when (dueAt t <=? now w) (fire videoId t) w) as [[] w1|w1];
    [|reflexivity].
  rewrite IH. reflexivity.
Qed.

Lemma Forall_filter_keeps (Q : Timer -> Prop) (keep : Timer -> Prop)
    `{!forall t, Decision (keep t)} l :
  Forall Q l -> Forall Q (filter keep l).
Proof.
  intros HQ. apply Forall_forall. intros t Ht.
  apply list_elem_of_filter in Ht as [_ Ht].
  rewrite Forall_forall in HQ. by apply HQ.
Qed.

Lemma Forall_withoutTimer (Q : Timer -> Prop) ref l :
  Forall Q l -> Forall Q (withoutTimer ref l).
Proof. destruct ref; cbn; [apply Forall_filter_keeps | auto]. Qed.

Lemma isPending_last others t w :
  pending w = others ++ [t] -> isPending (timerId t) w = true.
Proof.
  intros Hp. unfold isPending. rewrite Hp, existsb_app. cbn.
  rewrite Pos.eqb_refl. apply orb_true_iff. right; reflexivity.
Qed.

(** The last timer set fires alone when nothing older is due yet. *)
Lemma tick_fires others t w :
  pending w = others ++ [t] ->
  every t = None ->
  dueAt t <= now w + 1 ->
  Forall (fun o => now w + 1 < dueAt o) others ->
  tick videoId w =
    runCallback videoId (callback t)
      (set_pending (filter (fun t' => timerId t' ≠ timerId t) others)
         (set_now (now w + 1) w)).
Proof.
  intros Hp Hevery Hdue Hothers.
  unfold tick, bind at 1, modify at 1, bind at 1, gets at 1.
  change (pending (set_now (now w + 1) w)) with (pending w).
  rewrite Hp, runDue_app. unfold bind at 1.
  rewrite runDue_none_due by exact Hothers.
  cbn [runDue].
  unfold bind at 1, gets at 1. rewrite bind_skip. cbn [now set_now].
  replace (dueAt t <=? now w + 1) with true by (symmetry; apply Z.leb_le; lia).
  cbn [when]. unfold fire, bind at 1, gets at 1.
  rewrite (isPending_last others t) by exact Hp.
  cbn [when]. unfold bind at 1, modify at 1.
  cbn [pending set_now]. rewrite Hp.
  unfold afterFiring. rewrite Hevery.
  rewrite filter_app, filter_cons_False, filter_nil, app_nil_r by (intros E; apply E; reflexivity).
  reflexivity.
Qed.

(** Waiting with one timer ahead: nothing happens before it is due; at
    its time its callback runs, and the rest of the wait follows. *)
Lemma elapse_before (wait : nat) others t w :
  pending w = others ++ [t] ->
  now w + Z.of_nat wait < dueAt t ->
  Forall (fun o => now w + Z.of_nat wait < dueAt o) others ->
  elapse videoId wait w = Ok tt (set_now (now w + Z.of_nat wait) w).
Proof.
  intros Hp Ht Hothers. apply elapse_quiet. rewrite Hp.
  apply Forall_app. split; [exact Hothers|]. by constructor.
Qed.

Lemma elapse_through (wait delay : nat) others t w :
  pending w = others ++ [t] ->
  every t = None ->
  dueAt t = now w + Z.of_nat (S delay) ->
  (S delay <= wait)%nat ->
  Forall (fun o => now w + Z.of_nat wait < dueAt o) others ->
  elapse videoId wait w =
    (runCallback videoId (callback t) ;; elapse videoId (wait - S delay))
      (set_pending (filter (fun t' => timerId t' ≠ timerId t) others)
         (set_now (now w + Z.of_nat (S delay)) w)).
Proof.
  intros Hp Hevery Hdue Hle Hothers.
  replace wait with (delay + (1 + (wait - S delay)))%nat at 1 by lia.
  rewrite elapse_add. unfold bind at 1.
  rewrite (elapse_before delay others t w Hp).
  - rewrite elapse_add. unfold bind at 1.
    change (elapse videoId 1) with (tick videoId ;; skip).
    rewrite bind_skip.
    rewrite (tick_fires others t); cbn [now pending set_now]; try assumption.
    + rewrite set_now_twice.
      replace (now w + Z.of_nat delay + 1) with (now w + Z.of_nat (S delay)) by lia.
      reflexivity.
    + lia.
    + eapply Forall_impl; [exact Hothers|]. cbn. intros; lia.
  - lia.
  - eapply Forall_impl; [exact Hothers|]. cbn. intros; lia.
Qed.

End Time.

(** ** Seeking *)

Section Seeking.

Context {P : Type} `{Primitive P}.
Variable videoId : string.
Implicit Types (w : @World P) (t : Timer) (l : list Timer).

Ltac run_handler :=
  unfold handleSeek, handleSeekWithPause, handleRetry, tryCatch, clearIfSet,
    pauseIfPlaying, showPosition, updatePlaybackState, savePlaybackPosition,
    setTimeout, clearTimeout, call, when, skip, ret, bind, gets, modify;
  cbn -[spread Store.save filter].

(** A plain seek request that is accepted: the pending commit, if any, is
    cleared and a new one is set 300 ms ahead. *)
Lemma handleSeek_spec position w :
  returns Pause ->
  exists w',
    handleSeek position w = Ok tt w' /\
    now w' = now w /\
    pending w' =
      withoutTimer (seekTimeout w) (pending w) ++
      [mkTimer (nextTimerId w) (now w + 300) None (SeekCommit position)] /\
    seekTimeout w' = Some (nextTimerId w) /\
    commands w' = commands w ++ (if playing (player w) then [Pause] else []) /\
    isPlaying (playbackState w') =
      (if playing (player w) then false else isPlaying (playbackState w)) /\
    currentTime (playbackState w') = position.
Proof.
  intros Hpause. run_handler.
  destruct (seekTimeout w) as [id|]; cbn -[spread filter];
    destruct (playing (player w)) eqn:Eplaying; cbn -[spread filter];
    try (destruct (Hpause (player w)) as [p' ->]; cbn -[spread filter]);
    eexists; (split; [reflexivity|]); cbn -[filter];
    rewrite ?Eplaying, ?app_nil_r; auto 10.
Qed.

(** The commit of a plain seek sends the position to the player, and
    returns whether or not the player throws. *)
Lemma SeekCommit_spec position w :
  exists w',
    runCallback videoId (SeekCommit position) w = Ok tt w' /\
    now w' = now w /\
    pending w' = pending w /\
    commands w' = commands w ++ [SetCurrentTime position] /\
    isPlaying (playbackState w') = isPlaying (playbackState w) /\
    currentTime (playbackState w') = currentTime (playbackState w).
Proof.
  unfold runCallback. run_handler.
  destruct (perform (SetCurrentTime position) (player w));
    eexists; (split; [reflexivity|]); cbn; auto 10.
Qed.

(** A world with a plain commit as its newest timer, 300 ms ahead, and
    nothing else due during the wait. *)
Lemma commit_in_300 others id position w (wait : nat) :
  pending w = others ++ [mkTimer id (now w + 300) None (SeekCommit position)] ->
  Forall (fun o => now w + Z.of_nat wait < dueAt o) others ->
  exists w',
    elapse videoId wait w = Ok tt w' /\
    commands w' =
      commands w ++ (if (300 <=? wait)%nat then [SetCurrentTime position] else []) /\
    isPlaying (playbackState w') = isPlaying (playbackState w) /\
    currentTime (playbackState w') = currentTime (playbackState w).
Proof.
  intros Hp Hothers.
  destruct (300 <=? wait)%nat eqn:Ewait.
  - apply Nat.leb_le in Ewait.
    rewrite (elapse_through videoId wait 299 others _ w Hp);
      [|reflexivity| cbn [dueAt]; lia | lia | exact Hothers].
    cbn [callback timerId]. unfold bind at 1.
    match goal with |- context [runCallback _ _ ?w0] =>
      destruct (SeekCommit_spec position w0) as (w1 & R1 & N1 & P1 & C1 & I1 & T1)
    end.
    rewrite R1.
    cbn [now pending commands playbackState set_pending set_now] in N1, P1, C1, I1, T1.
    rewrite elapse_quiet.
    + eexists. split; [reflexivity|].
      cbn [commands playbackState set_now]. auto.
    + rewrite N1, P1. apply Forall_filter_keeps.
      eapply Forall_impl; [exact Hothers|]. cbn. intros; lia.
  - apply Nat.leb_gt in Ewait.
    rewrite (elapse_before videoId wait others _ w Hp);
      [| cbn [dueAt]; lia | exact Hothers].
    eexists. split; [reflexivity|].
    cbn [commands playbackState set_now]. rewrite app_nil_r. auto.
Qed.

(** The plain seek: the position goes to the player once, 300 ms after
    the request, and nothing resumes playback afterwards. *)
Lemma plain_seek_timeline position w (wait : nat) :
  returns Pause ->
  Forall (fun t => now w + Z.of_nat wait < dueAt t) (pending w) ->
  exists w',
    (handleSeek position ;; elapse videoId wait) w = Ok tt w' /\
    commands w' =
      commands w ++ (if playing (player w) then [Pause] else []) ++
      (if (300 <=? wait)%nat then [SetCurrentTime position] else []) /\
    isPlaying (playbackState w') =
      (if playing (player w) then false else isPlaying (playbackState w)).
Proof.
  intros Hpause Hquiet.
  destruct (handleSeek_spec position w Hpause)
    as (w1 & R1 & N1 & P1 & S1 & C1 & I1 & T1).
  unfold bind at 1. rewrite R1.
  rewrite <- N1 in P1.
  destruct (commit_in_300 _ _ _ w1 wait P1) as (w2 & R2 & C2 & I2 & T2).
  - rewrite N1. by apply Forall_withoutTimer.
  - exists w2. split; [exact R2|].
    rewrite C2, C1, I2, I1, <- app_assoc. auto.
Qed.

Lemma pause_or_nothing (b : bool) :
  Forall (eq Pause) (if b then [Pause] else []).
Proof. destruct b; repeat constructor. Qed.

(** C5. A seek request to 10 and, less than 300 ms later, a seek request
    to 20, with a player whose [pause] returns and no other timer due
    meanwhile: once 300 ms have passed since the second request, the
    commands sent to the player since the first request are pauses
    followed by exactly one [SetCurrentTime], with value 20. *)
Theorem C5_two_rapid_seeks w (gap wait : nat) :
  returns Pause ->
  (gap < 300)%nat ->
  (300 <= wait)%nat ->
  Forall (fun t => now w + Z.of_nat gap + Z.of_nat wait < dueAt t) (pending w) ->
  exists w' pauses,
    (handleSeek 10 ;; elapse videoId gap ;;
     handleSeek 20 ;; elapse videoId wait) w = Ok tt w' /\
    Forall (eq Pause) pauses /\
    commands w' = commands w ++ pauses ++ [SetCurrentTime 20] /\
    currentTime (playbackState w') = 20.
Proof.
  intros Hpause Hgap Hwait Hquiet.
  destruct (handleSeek_spec 10 w Hpause)
    as (w1 & R1 & N1 & P1 & S1 & C1 & I1 & T1).
  unfold bind at 1. rewrite R1.
  unfold bind at 1.
  rewrite (elapse_before videoId gap _ _ w1 P1);
    [| cbn [dueAt]; lia
     | rewrite N1; apply Forall_withoutTimer;
       eapply Forall_impl; [exact Hquiet|]; cbn; intros; lia].
  set (w1' := set_now (now w1 + Z.of_nat gap) w1).
  destruct (handleSeek_spec 20 w1' Hpause)
    as (w2 & R2 & N2 & P2 & S2 & C2 & I2 & T2).
  unfold bind at 1. rewrite R2.
  subst w1'. cbn [now pending seekTimeout commands player set_now] in N2, P2, C2.
  rewrite S1, P1 in P2. cbn [withoutTimer] in P2.
  rewrite filter_app, filter_cons_False, filter_nil, app_nil_r in P2
    by (cbn [timerId]; intros E; apply E; reflexivity).
  rewrite <- N2 in P2.
  destruct (commit_in_300 _ _ _ w2 wait P2) as (w3 & R3 & C3 & I3 & T3).
  - rewrite N2, N1. apply Forall_filter_keeps, Forall_withoutTimer.
    eapply Forall_impl; [exact Hquiet|]. cbn. intros; lia.
  - exists w3.
    exists ((if playing (player w) then [Pause] else []) ++
            (if playing (player w1) then [Pause] else [])).
    split; [exact R3|]. split.
    + apply Forall_app. split; apply pause_or_nothing.
    + rewrite C3, C2, C1, T3, T2.
      replace (300 <=? wait)%nat with true by (symmetry; apply Nat.leb_le; lia).
      rewrite <- !app_assoc. auto.
Qed.

(** *** The seek that resumes *)

Lemma handleSeekWithPause_spec position w :
  returns Pause ->
  exists w',
    handleSeekWithPause position w = Ok tt w' /\
    now w' = now w /\
    pending w' =
      withoutTimer (seekTimeout w) (pending w) ++
      [mkTimer (nextTimerId w) (now w + 100) None (SeekWithPauseCommit position)] /\
    wasPlayingBeforeSeek w' = playing (player w) /\
    commands w' = commands w ++ (if playing (player w) then [Pause] else []) /\
    isPlaying (playbackState w') =
      (if playing (player w) then false else isPlaying (playbackState w)).
Proof.
  intros Hpause. run_handler.
  destruct (playing (player w)) eqn:Eplaying; cbn -[spread filter];
    try (destruct (Hpause (player w)) as [p' ->]; cbn -[spread filter]);
    destruct (seekTimeout w) as [id|]; cbn -[spread filter];
    eexists; (split; [reflexivity|]); cbn -[filter];
    rewrite ?Eplaying, ?app_nil_r; auto 10.
Qed.

Lemma SeekWithPauseCommit_spec position w :
  returns (SetCurrentTime position) ->
  exists w',
    runCallback videoId (SeekWithPauseCommit position) w = Ok tt w' /\
    now w' = now w /\
    pending w' =
      pending w ++
      (if wasPlayingBeforeSeek w
       then [mkTimer (nextTimerId w) (now w + 300) None ResumeAfterSeek]
       else []) /\
    commands w' = commands w ++ [SetCurrentTime position] /\
    isPlaying (playbackState w') = isPlaying (playbackState w).
Proof.
  intros Hset. unfold runCallback. run_handler.
  destruct (Hset (player w)) as [p' ->]. cbn -[Store.save].
  destruct (wasPlayingBeforeSeek w); cbn -[Store.save];
    eexists; (split; [reflexivity|]); cbn; rewrite ?app_nil_r; auto 10.
Qed.

Lemma ResumeAfterSeek_spec w :
  returns Play ->
  exists w',
    runCallback videoId ResumeAfterSeek w = Ok tt w' /\
    now w' = now w /\
    pending w' = pending w /\
    commands w' = commands w ++ [Play] /\
    isPlaying (playbackState w') = true.
Proof.
  intros Hplay. unfold runCallback. run_handler.
  destruct (Hplay (player w)) as [p' ->].
  eexists. split; [reflexivity|]. cbn. auto.
Qed.

Lemma resume_in_300 others id w (wait : nat) :
  returns Play ->
  pending w = others ++ [mkTimer id (now w + 300) None ResumeAfterSeek] ->
  Forall (fun o => now w + Z.of_nat wait < dueAt o) others ->
  exists w',
    elapse videoId wait w = Ok tt w' /\
    commands w' = commands w ++ (if (300 <=? wait)%nat then [Play] else []) /\
    isPlaying (playbackState w') =
      (if (300 <=? wait)%nat then true else isPlaying (playbackState w)).
Proof.
  intros Hplay Hp Hothers.
  destruct (300 <=? wait)%nat eqn:Ewait.
  - apply Nat.leb_le in Ewait.
    rewrite (elapse_through videoId wait 299 others _ w Hp);
      [|reflexivity| cbn [dueAt]; lia | lia | exact Hothers].
    cbn [callback timerId]. unfold bind at 1.
    match goal with |- context [runCallback _ _ ?w0] =>
      destruct (ResumeAfterSeek_spec w0 Hplay) as (w1 & R1 & N1 & P1 & C1 & I1)
    end.
    rewrite R1.
    cbn [now pending commands playbackState set_pending set_now] in N1, P1, C1, I1.
    rewrite elapse_quiet.
    + eexists. split; [reflexivity|].
      cbn [commands playbackState set_now]. auto.
    + rewrite N1, P1. apply Forall_filter_keeps.
      eapply Forall_impl; [exact Hothers|]. cbn. intros; lia.
  - apply Nat.leb_gt in Ewait.
    rewrite (elapse_before videoId wait others _ w Hp);
      [| cbn [dueAt]; lia | exact Hothers].
    eexists. split; [reflexivity|].
    cbn [commands playbackState set_now]. rewrite app_nil_r. auto.
Qed.

Lemma commit_in_100 others id position w (wait : nat) :
  returns (SetCurrentTime position) ->
  returns Play ->
  pending w =
    others ++ [mkTimer id (now w + 100) None (SeekWithPauseCommit position)] ->
  Forall (fun o => now w + Z.of_nat wait < dueAt o) others ->
  exists w',
    elapse videoId wait w = Ok tt w' /\
    commands w' =
      commands w ++
      (if (100 <=? wait)%nat then [SetCurrentTime position] else []) ++
      (if wasPlayingBeforeSeek w && (400 <=? wait)%nat then [Play] else []) /\
    isPlaying (playbackState w') =
      (if wasPlayingBeforeSeek w && (400 <=? wait)%nat
       then true else isPlaying (playbackState w)).
Proof.
  intros Hset Hplay Hp Hothers.
  destruct (100 <=? wait)%nat eqn:Ewait.
  - apply Nat.leb_le in Ewait.
    rewrite (elapse_through videoId wait 99 others _ w Hp);
      [|reflexivity| cbn [dueAt]; lia | lia | exact Hothers].
    cbn [callback timerId]. unfold bind at 1.
    match goal with |- context [runCallback _ _ ?w0] =>
      destruct (SeekWithPauseCommit_spec position w0 Hset)
        as (w1 & R1 & N1 & P1 & C1 & I1)
    end.
    rewrite R1.
    cbn [now pending commands playbackState wasPlayingBeforeSeek nextTimerId
         set_pending set_now] in N1, P1, C1, I1.
    assert (Hrest : Forall (fun o => now w1 + Z.of_nat (wait - 100) < dueAt o)
              (filter (fun t' => timerId t' ≠ id) others)).
    { rewrite N1. apply Forall_filter_keeps.
      eapply Forall_impl; [exact Hothers|]. cbn. intros; lia. }
    destruct (wasPlayingBeforeSeek w); cbn [andb].
    + rewrite <- N1 in P1.
      destruct (resume_in_300 _ _ w1 (wait - 100) Hplay P1 Hrest)
        as (w2 & R2 & C2 & I2).
      exists w2. split; [exact R2|].
      rewrite C2, I2, C1, I1.
      replace (300 <=? wait - 100)%nat with (400 <=? wait)%nat
        by (destruct (400 <=? wait)%nat eqn:E1, (300 <=? wait - 100)%nat eqn:E2;
            try reflexivity;
            [apply Nat.leb_le in E1; apply Nat.leb_gt in E2
            |apply Nat.leb_gt in E1; apply Nat.leb_le in E2]; lia).
      rewrite <- app_assoc. auto.
    + rewrite app_nil_r in P1.
      rewrite elapse_quiet by (rewrite P1; exact Hrest).
      eexists. split; [reflexivity|].
      cbn [commands playbackState set_now]. rewrite C1, I1. auto.
  - apply Nat.leb_gt in Ewait.
    rewrite (elapse_before videoId wait others _ w Hp);
      [| cbn [dueAt]; lia | exact Hothers].
    eexists. split; [reflexivity|].
    cbn [commands playbackState set_now].
    replace (400 <=? wait)%nat with false by (symmetry; apply Nat.leb_gt; lia).
    rewrite andb_false_r, !app_nil_r. auto.
Qed.

(** The seek that resumes: the position goes to the player 100 ms after
    the request, and a player that was playing at the request is told to
    play 300 ms after that. *)
Lemma seek_with_resume_timeline position w (wait : nat) :
  returns Pause ->
  returns (SetCurrentTime position) ->
  returns Play ->
  Forall (fun t => now w + Z.of_nat wait < dueAt t) (pending w) ->
  exists w',
    (handleSeekWithPause position ;; elapse videoId wait) w = Ok tt w' /\
    commands w' =
      commands w ++ (if playing (player w) then [Pause] else []) ++
      (if (100 <=? wait)%nat then [SetCurrentTime position] else []) ++
      (if playing (player w) && (400 <=? wait)%nat then [Play] else []) /\
    isPlaying (playbackState w') =
      (if playing (player w)
       then (400 <=? wait)%nat
       else isPlaying (playbackState w)).
Proof.
  intros Hpause Hset Hplay Hquiet.
  destruct (handleSeekWithPause_spec position w Hpause)
    as (w1 & R1 & N1 & P1 & W1 & C1 & I1).
  unfold bind at 1. rewrite R1.
  rewrite <- N1 in P1.
  destruct (commit_in_100 _ _ _ w1 wait Hset Hplay P1) as (w2 & R2 & C2 & I2).
  - rewrite N1. by apply Forall_withoutTimer.
  - exists w2. split; [exact R2|].
    rewrite C2, I2, C1, I1, W1, <- !app_assoc. split; [reflexivity|].
    destruct (playing (player w)); cbn [andb];
      [destruct (400 <=? wait)%nat|]; reflexivity.
Qed.

(** C3, amended. The two seek paths have different callers. With the
    progress bar focused, left and right call [handleSeek], and so does a
    press on the bar; only the 10-second jumps call [handleSeekWithPause].
    A plain seek pauses a playing player, sends the position to the player
    300 ms after the request, and never resumes playback. A seek with
    resume records whether the player was playing at the request, pauses
    it, sends the position 100 ms after the request and, if the player was
    playing, tells it to play 300 ms after that. The timelines are for a
    player whose commands return, with no other timer due meanwhile. *)
Theorem C3_seek_paths w :
  (focusedControl w = Some progress ->
     handleTVRemoteKey (press "left") w =
       (handleSeek (Z.max 0 (currentTime (playbackState w) - 10)) ;;
        showControlsWithTimer) w /\
     handleTVRemoteKey (press "right") w =
       (handleSeek (Z.min (duration (playbackState w))
                          (currentTime (playbackState w) + 10)) ;;
        showControlsWithTimer) w) /\
  (forall seekPosition, 0 < duration (playbackState w) ->
     pressProgressBar seekPosition w =
       handleSeek (Z.max 0 (Z.min (duration (playbackState w)) seekPosition)) w) /\
  handleSeekForward w =
    handleSeekWithPause
      (Z.min (currentTime (playbackState w) + 10) (duration (playbackState w))) w /\
  handleSeekBackward w =
    handleSeekWithPause (Z.max (currentTime (playbackState w) - 10) 0) w /\
  (forall position (wait : nat),
     returns Pause ->
     Forall (fun t => now w + Z.of_nat wait < dueAt t) (pending w) ->
     exists w',
       (handleSeek position ;; elapse videoId wait) w = Ok tt w' /\
       commands w' =
         commands w ++ (if playing (player w) then [Pause] else []) ++
         (if (300 <=? wait)%nat then [SetCurrentTime position] else []) /\
       isPlaying (playbackState w') =
         (if playing (player w) then false else isPlaying (playbackState w))) /\
  (forall position (wait : nat),
     returns Pause -> returns (SetCurrentTime position) -> returns Play ->
     Forall (fun t => now w + Z.of_nat wait < dueAt t) (pending w) ->
     exists w',
       (handleSeekWithPause position ;; elapse videoId wait) w = Ok tt w' /\
       commands w' =
         commands w ++ (if playing (player w) then [Pause] else []) ++
         (if (100 <=? wait)%nat then [SetCurrentTime position] else []) ++
         (if playing (player w) && (400 <=? wait)%nat then [Play] else []) /\
       isPlaying (playbackState w') =
         (if playing (player w)
          then (400 <=? wait)%nat
          else isPlaying (playbackState w))).
Proof.
  refine (conj _ (conj _ (conj _ (conj _ (conj _ _))))).
  - intros Hfocus. split.
    + by apply handleTVRemoteKey_left_progress.
    + by apply handleTVRemoteKey_right_progress.
  - intros x Hd. unfold pressProgressBar, ProgressBar_handleSeek, bind, gets.
    replace (0 <? duration (playbackState w)) with true
      by (symmetry; apply Z.ltb_lt; exact Hd).
    reflexivity.
  - reflexivity.
  - reflexivity.
  - intros position wait. apply plain_seek_timeline.
  - intros position wait. apply seek_with_resume_timeline.
Qed.

(** *** Faults of the player *)

(** The handlers written with [try]/[catch] return whatever the player
    does. *)
Lemma handlePlayPause_never_throws w : threw (handlePlayPause w) = false.
Proof.
  unfold handlePlayPause. run_handler.
  destruct (playing (player w));
    match goal with |- context [perform ?c ?p] => destruct (perform c p) end;
    reflexivity.
Qed.

Lemma handleSeek_never_throws position w :
  threw (handleSeek position w) = false.
Proof.
  run_handler.
  destruct (seekTimeout w); cbn -[spread filter];
    destruct (playing (player w)); cbn -[spread filter];
    try match goal with |- context [perform ?c ?p] => destruct (perform c p) end;
    reflexivity.
Qed.

Lemma SeekCommit_never_throws position w :
  threw (runCallback videoId (SeekCommit position) w) = false.
Proof.
  destruct (SeekCommit_spec position w) as (w' & -> & _). reflexivity.
Qed.

Lemma handleRetry_never_throws url hlsUrl isTV w :
  threw (handleRetry url hlsUrl isTV w) = false.
Proof.
  run_handler.
  destruct (seekTimeout w); cbn -[spread filter];
    match goal with |- context [perform ?c ?p] => destruct (perform c p) end;
    reflexivity.
Qed.

(** What they record when the player throws. *)
Lemma handleSeek_fault position w p' :
  playing (player w) = true ->
  perform Pause (player w) = Thrown p' ->
  error (playbackState (finalWorld (handleSeek position w))) =
    Some (Some "Failed to seek in video").
Proof.
  intros Hplaying Hthrow. run_handler.
  destruct (seekTimeout w); cbn -[spread filter];
    rewrite Hplaying; cbn -[spread filter]; rewrite Hthrow; reflexivity.
Qed.

Lemma SeekCommit_fault position w p' :
  perform (SetCurrentTime position) (player w) = Thrown p' ->
  error (playbackState (finalWorld (runCallback videoId (SeekCommit position) w))) =
    Some (Some "Failed to seek to position").
Proof.
  intros Hthrow. unfold runCallback. run_handler. rewrite Hthrow. reflexivity.
Qed.

Lemma handleRetry_fault url hlsUrl isTV w p' :
  (forall source, perform (Replace source) (player w) = Thrown p') ->
  error (playbackState (finalWorld (handleRetry url hlsUrl isTV w))) =
    Some (Some "Failed to retry video playback").
Proof.
  intros Hthrow. run_handler.
  destruct (seekTimeout w); cbn -[spread filter];
    rewrite Hthrow; reflexivity.
Qed.

(** C2, where the code departs from it. [handleSeekWithPause] and its two
    timer callbacks call the player outside any [try]: when [pause], the
    assignment to [currentTime] or [play] throws, the exception leaves the
    handler or the callback, and the playback state records nothing. *)
Theorem C2_seek_with_resume_faults_escape position w p' :
  (playing (player w) = true ->
   perform Pause (player w) = Thrown p' ->
   exists w',
     handleSeekWithPause position w = Uncaught w' /\
     playbackState w' = playbackState w) /\
  (perform (SetCurrentTime position) (player w) = Thrown p' ->
   exists w',
     runCallback videoId (SeekWithPauseCommit position) w = Uncaught w' /\
     playbackState w' = playbackState w) /\
  (perform Play (player w) = Thrown p' ->
   exists w',
     runCallback videoId ResumeAfterSeek w = Uncaught w' /\
     playbackState w' = playbackState w).
Proof.
  refine (conj _ (conj _ _)).
  - intros Hplaying Hthrow. run_handler.
    rewrite Hplaying. cbn -[spread filter]. rewrite Hthrow.
    eexists. split; reflexivity.
  - intros Hthrow. unfold runCallback. run_handler. rewrite Hthrow.
    eexists. split; reflexivity.
  - intros Hthrow. unfold runCallback. run_handler. rewrite Hthrow.
    eexists. split; reflexivity.
Qed.

End Seeking.

(** A playing player, the second request 120 ms after the first, and a
    look at the commands half a second later. *)
Lemma C5_two_rapid_seeks_witness :
  exists w' pauses,
    (handleSeek 10 ;; elapse "v1" 120 ;;
     handleSeek 20 ;; elapse "v1" 500) (testWorld Immediate true) = Ok tt w' /\
    Forall (eq Pause) pauses /\
    commands w' = commands (testWorld Immediate true) ++ pauses ++ [SetCurrentTime 20] /\
    currentTime (playbackState w') = 20.
Proof.
  apply (C5_two_rapid_seeks "v1" (testWorld Immediate true) 120 500).
  - intros p. eexists. reflexivity.
  - lia.
  - lia.
  - constructor.
Defined.

(** A playing player, the progress bar focused, a second of waiting. *)
Lemma C3_seek_paths_witness :
  let w := set_focusedControl (Some progress) (testWorld Immediate true) in
  handleTVRemoteKey (press "right") w =
    (handleSeek 30 ;; showControlsWithTimer) w /\
  pressProgressBar 60 w = handleSeek 60 w /\
  (exists w',
     (handleSeek 30 ;; elapse "v1" 1000) w = Ok tt w' /\
     commands w' = [Pause; SetCurrentTime 30] /\
     isPlaying (playbackState w') = false) /\
  (exists w',
     (handleSeekWithPause 30 ;; elapse "v1" 1000) w = Ok tt w' /\
     commands w' = [Pause; SetCurrentTime 30; Play] /\
     isPlaying (playbackState w') = true).
Proof.
  intros w.
  destruct (C3_seek_paths "v1" w) as (A & B & _ & _ & E & F).
  refine (conj _ (conj _ (conj _ _))).
  - apply A. reflexivity.
  - apply B. reflexivity.
  - apply (E 30 1000%nat).
    + intros p. eexists. reflexivity.
    + constructor.
  - apply (F 30 1000%nat).
    + intros p. eexists. reflexivity.
    + intros p. eexists. reflexivity.
    + intros p. eexists. reflexivity.
    + constructor.
Defined.

(** The claim as first stated, on a playing player with the progress bar
    focused. After a press of right the position has not reached the
    player 100 ms later, nor 299 ms later; a second later the player has
    been paused and sought but never told to play again, and [isPlaying]
    is still false. A press on the bar does the same. *)
Lemma C3_counterexample :
  let w := set_focusedControl (Some progress) (testWorld Immediate true) in
  let key ms :=
    finalWorld ((handleTVRemoteKey (press "right") ;; elapse "v1" ms) w) in
  let bar ms :=
    finalWorld ((pressProgressBar 60 ;; elapse "v1" ms) w) in
  playing (player w) = true /\
  commands (key 100%nat) = [Pause] /\
  commands (key 299%nat) = [Pause] /\
  commands (key 1000%nat) = [Pause; SetCurrentTime 30] /\
  ~ In Play (commands (key 1000%nat)) /\
  isPlaying (playbackState (key 1000%nat)) = false /\
  commands (bar 100%nat) = [Pause] /\
  commands (bar 1000%nat) = [Pause; SetCurrentTime 60] /\
  ~ In Play (commands (bar 1000%nat)) /\
  isPlaying (playbackState (bar 1000%nat)) = false.
Proof.
  vm_compute.
  repeat (split; [try reflexivity; intros [E|[E|[]]]; discriminate E|]).
  reflexivity.
Qed.

(** A player that throws: a jump on a playing player lets the exception
    of [pause] out; on a paused player the request returns and the
    exception of the assignment leaves the timer callback. 100 ms after the
    request the run has ended with an exception and without an error in
    the playback state. *)
Lemma C2_seek_with_resume_faults_escape_witness :
  (exists w',
     handleSeekWithPause 30 (testWorld Broken true) = Uncaught w' /\
     playbackState w' = playbackState (testWorld Broken true)) /\
  (exists w',
     runCallback "v1" (SeekWithPauseCommit 30) (testWorld Broken false) = Uncaught w' /\
     playbackState w' = playbackState (testWorld Broken false)) /\
  (exists w',
     runCallback "v1" ResumeAfterSeek (testWorld Broken false) = Uncaught w' /\
     playbackState w' = playbackState (testWorld Broken false)).
Proof.
  refine (conj _ (conj _ _)).
  - destruct (C2_seek_with_resume_faults_escape "v1" 30 (testWorld Broken true)
                (testPlayer Broken true)) as (A & _ & _).
    apply A; reflexivity.
  - destruct (C2_seek_with_resume_faults_escape "v1" 30 (testWorld Broken false)
                (testPlayer Broken false)) as (_ & B & _).
    apply B; reflexivity.
  - destruct (C2_seek_with_resume_faults_escape "v1" 30 (testWorld Broken false)
                (testPlayer Broken false)) as (_ & _ & C).
    apply C; reflexivity.
Defined.

(** The same fault through the timers: the forward jump of a paused
    player is accepted, and the wait of 100 ms ends with the exception. *)
Lemma seek_forward_fault_reaches_runtime :
  let r := (handleSeekForward ;; elapse "v1" 100) (testWorld Broken false) in
  threw r = true /\
  error (playbackState (finalWorld r)) = Some None /\
  commands (finalWorld r) = [SetCurrentTime 30].
Proof. vm_compute. repeat split. Qed.

(** * Further properties of the code *)

(** ** usePlaybackState.ts : more on the saved positions *)

Section MoreSavedPositions.

Implicit Types (m : gmap string PlaybackPosition) (id : string).

(** X1. Save, then look up: a position above 30 comes back from any lookup
    made less than 24 hours after the save, whatever the store held for
    the id before. *)
Theorem save_then_get now later id p m :
  30 < p -> later - now < dayMs ->
  Store.get later id (Store.save now id p m) = p.
Proof.
  intros Hp Hage. rewrite save_long by exact Hp.
  rewrite (get_recent later id _ (mkPosition id p now));
    [reflexivity | apply lookup_insert_eq | exact Hage].
Qed.

(** X2. Saving or clearing one video never changes what a lookup gives for
    another. *)
Theorem other_ids_untouched now later id id' p m :
  id <> id' ->
  Store.get later id' (Store.save now id p m) = Store.get later id' m /\
  Store.get later id' (Store.clear id m) = Store.get later id' m.
Proof.
  intros Hne. unfold Store.get, Store.save, Store.clear. split.
  - destruct (30 <? p); [|reflexivity]. by rewrite lookup_insert_ne.
  - by rewrite lookup_delete_ne.
Qed.

(** A position of 30 or less does not replace an entry: the lookup gives
    what it gave before the save. After a clear the lookup gives 0, and a
    later save is found again. *)
Lemma short_save_and_clear now later id p q m :
  p <= 30 ->
  Store.get later id (Store.save now id p m) = Store.get later id m /\
  Store.get later id (Store.clear id m) = 0 /\
  (30 < q -> later - now < dayMs ->
   Store.get later id (Store.save now id q (Store.clear id m)) = q).
Proof.
  intros Hp. refine (conj _ (conj _ _)).
  - by rewrite save_short.
  - apply get_absent. apply lookup_delete_eq.
  - intros Hq Hage. rewrite save_long by exact Hq.
    rewrite (get_recent later id _ (mkPosition id q now));
      [reflexivity | apply lookup_insert_eq | exact Hage].
Qed.

Lemma storeOk_empty : storeOk ∅.
Proof. intros id e Hl. by rewrite lookup_empty in Hl. Qed.

Lemma storeOk_save now id p m : storeOk m -> storeOk (Store.save now id p m).
Proof.
  intros Hok id' e. unfold Store.save.
  destruct (30 <? p) eqn:Ep; [|apply Hok].
  apply Z.ltb_lt in Ep.
  destruct (decide (id = id')) as [<-|Hne].
  - rewrite lookup_insert_eq. intros [= <-]. cbn. auto.
  - rewrite lookup_insert_ne by exact Hne. apply Hok.
Qed.

Lemma storeOk_clear id m : storeOk m -> storeOk (Store.clear id m).
Proof.
  intros Hok id' e. unfold Store.clear.
  destruct (decide (id = id')) as [<-|Hne].
  - by rewrite lookup_delete_eq.
  - rewrite lookup_delete_ne by exact Hne. apply Hok.
Qed.

(** X3. The store starts empty and changes only through saves and clears.
    The empty store satisfies [storeOk] and saves and clears keep it; and
    a lookup in a store that satisfies it gives 0 or a position above 30,
    never one in between. *)
Theorem saved_position_zero_or_above_30 :
  storeOk ∅ /\
  forall m, storeOk m ->
    (forall now id p, storeOk (Store.save now id p m)) /\
    (forall id, storeOk (Store.clear id m)) /\
    (forall now id, Store.get now id m = 0 \/ 30 < Store.get now id m).
Proof.
  split; [apply storeOk_empty|].
  intros m Hok. refine (conj _ (conj _ _)).
  - intros. by apply storeOk_save.
  - intros. by apply storeOk_clear.
  - intros now id. unfold Store.get.
    destruct (m !! id) as [e|] eqn:El; [|by left].
    cbn zeta. destruct (now - timestamp e <? dayMs); [|by left].
    right. by apply (Hok id e).
Qed.

End MoreSavedPositions.

Lemma save_then_get_witness :
  Store.get 9000 "v1" (Store.save 5000 "v1" 72 (Store.save 100 "v1" 45 ∅)) = 72.
Proof. apply save_then_get; [lia | unfold dayMs; lia]. Defined.

Lemma other_ids_untouched_witness :
  Store.get 9000 "v2" (Store.save 5000 "v1" 72 (Store.save 100 "v2" 45 ∅)) =
    Store.get 9000 "v2" (Store.save 100 "v2" 45 ∅) /\
  Store.get 9000 "v2" (Store.clear "v1" (Store.save 100 "v2" 45 ∅)) =
    Store.get 9000 "v2" (Store.save 100 "v2" 45 ∅).
Proof. apply other_ids_untouched. discriminate. Defined.

Lemma saved_position_zero_or_above_30_witness :
  let m := Store.save 100 "v1" 45 ∅ in
  storeOk m /\
  (forall now id, Store.get now id m = 0 \/ 30 < Store.get now id m).
Proof.
  intros m.
  destruct saved_position_zero_or_above_30 as [Hempty Hstep].
  destruct (Hstep ∅ Hempty) as (Hsave & _).
  split; [apply Hsave|].
  destruct (Hstep m (Hsave 100 "v1" 45)) as (_ & _ & Hget). exact Hget.
Defined.

(** ** useVideoHandler.ts : more on the status events *)

Section MoreStatus.

Context {P : Type} `{Primitive P}.
Implicit Types (w : @World P) (ev : StatusChange).


Ltac run_status :=
  unfold onStatusChange, clearIfSet, clearTimeout, updatePlaybackState,
    bind, gets, modify, skip, ret;
  cbn -[spread filter String.eqb].


(** X5. A status event never throws, sends nothing to the player and leaves
    the player, the saved positions, the focus and the seek timer alone.
    Of the timers it clears only the loading timeout, and only on
    [readyToPlay]. *)
Theorem status_event_frame ev w :
  exists w',
    onStatusChange ev w = Ok tt w' /\
    commands w' = commands w /\
    player w' = player w /\
    playbackPositions w' = playbackPositions w /\
    focusedControl w' = focusedControl w /\
    seekTimeout w' = seekTimeout w /\
    pending w' =
      (if String.eqb (status ev) "readyToPlay"
       then withoutTimer (loadingTimeout w) (pending w)
       else pending w).
Proof.
  run_status.
  destruct (String.eqb (status ev) "idle") eqn:Ei.
  { apply String.eqb_eq in Ei. rewrite Ei. cbn.
    eexists; split; [reflexivity|]; cbn; auto 10. }
  destruct (String.eqb (status ev) "loading") eqn:Elo.
  { apply String.eqb_eq in Elo. rewrite Elo. cbn.
    eexists; split; [reflexivity|]; cbn; auto 10. }
  destruct (String.eqb (status ev) "readyToPlay").
  { destruct (loadingTimeout w); cbn -[spread filter];
      eexists; (split; [reflexivity|]); cbn -[filter]; auto 10. }
  destruct (String.eqb (status ev) "error");
    eexists; (split; [reflexivity|]); cbn; auto 10.
Qed.

(** The message recorded for an [error] event is empty only when the
    event carries the empty string itself: an absent payload, an object
    without a message and an object with an empty message all give the
    fallback text. *)
Lemma error_message_not_empty (e : ErrorPayload) :
  e <> ErrorString "" -> errorMessage e <> "".
Proof.
  intros He. destruct e as [|s|[m|]]; cbn; try discriminate.
  - intros ->. by apply He.
  - unfold falsy. destruct (String.eqb m "") eqn:Em; [discriminate|].
    by apply String.eqb_neq.
Qed.

End MoreStatus.

(** ** VideoPlayer.tsx : more on the remote control *)

Section MoreRemote.

Context {P : Type} `{Primitive P}.
Variable videoId : string.
Implicit Types (w : @World P).

Ltac run_key :=
  unfold handleTVRemoteKey, press, when, bind, gets;
  cbn -[indexOf elementAt showControlsWithTimer handleSeek handlePlayPause
        handleSeekForward handleSeekBackward controls].

(** Only presses act: an event whose [eventKeyAction] is not 1, a release
    for one, changes nothing at all. *)
Lemma released_key_ignored (type : string) (action : Z) w :
  action <> 1 ->
  handleTVRemoteKey (mkRemoteEvent type action) w = Ok tt w.
Proof.
  intros Ha. unfold handleTVRemoteKey, when. cbn [eventKeyAction].
  replace (action =? 1) with false by (symmetry; by apply Z.eqb_neq).
  reflexivity.
Qed.

(** X7. Left and right never take the focus off the row of buttons: from any
    focus but the progress bar, the absent one included, the new focus is
    one of [back], [seekBackward], [playPause], [seekForward]. The row is
    clamped at both ends. *)
Theorem arrows_stay_on_buttons w :
  focusedControl w <> Some progress ->
  (exists w' c,
     handleTVRemoteKey (press "left") w = Ok tt w' /\
     focusedControl w' = Some c /\ c ∈ controls) /\
  (exists w' c,
     handleTVRemoteKey (press "right") w = Ok tt w' /\
     focusedControl w' = Some c /\ c ∈ controls) /\
  (focusedControl w = Some back ->
   exists w', handleTVRemoteKey (press "left") w = Ok tt w' /\
              focusedControl w' = Some back) /\
  (focusedControl w = Some seekForward ->
   exists w', handleTVRemoteKey (press "right") w = Ok tt w' /\
              focusedControl w' = Some seekForward).
Proof.
  intros Hfocus. refine (conj _ (conj _ (conj _ _))).
  - destruct (left_moves w _ eq_refl Hfocus) as (w' & R & F).
    destruct (focusedControl w) as [[]|]; try contradiction;
      eexists w', _; (split; [exact R|]); (split; [exact F|]);
      unfold controls; set_solver.
  - destruct (right_moves w _ eq_refl Hfocus) as (w' & R & F).
    destruct (focusedControl w) as [[]|]; try contradiction;
      eexists w', _; (split; [exact R|]); (split; [exact F|]);
      unfold controls; set_solver.
  - intros Hb. destruct (left_moves w _ Hb) as (w' & R & F); [discriminate|].
    exists w'. split; [exact R | exact F].
  - intros Hs. destruct (right_moves w _ Hs) as (w' & R & F); [discriminate|].
    exists w'. split; [exact R | exact F].
Qed.

Lemma setFocus_then_show_frame (c : option Control) w :
  exists w',
    (setFocusedControl c ;; showControlsWithTimer) w = Ok tt w' /\
    focusedControl w' = c /\
    playbackState w' = playbackState w /\
    commands w' = commands w /\
    showControls w' = true.
Proof.
  unfold setFocusedControl, showControlsWithTimer, clearIfSet, clearTimeout,
    setTimeout, bind, gets, modify, skip, ret; cbn -[filter].
  destruct (hideControlsTimeout w); cbn -[filter];
    eexists; (split; [reflexivity|]); cbn; auto.
Qed.

(** X8. Up and down. Up leads from the progress bar to [playPause] and from
    anywhere else to [back]; down leads to the progress bar from
    anywhere. Neither touches the playback state or the player. *)
Theorem up_and_down w :
  (exists w',
     handleTVRemoteKey (press "up") w = Ok tt w' /\
     focusedControl w' =
       (if decide (focusedControl w = Some progress)
        then Some playPause else Some back) /\
     playbackState w' = playbackState w /\
     commands w' = commands w) /\
  (exists w',
     handleTVRemoteKey (press "down") w = Ok tt w' /\
     focusedControl w' = Some progress /\
     playbackState w' = playbackState w /\
     commands w' = commands w).
Proof.
  split.
  - run_key.
    destruct (decide (focusedControl w = Some progress)) as [Hp|Hp].
    + destruct (setFocus_then_show_frame (Some playPause) w)
        as (w' & R & F & S & C & _).
      exists w'. split; [exact R|]. auto.
    + destruct (setFocus_then_show_frame (Some back) w)
        as (w' & R & F & S & C & _).
      exists w'. split; [exact R|]. auto.
  - run_key.
    destruct (decide (focusedControl w = Some progress)) as [Hp|Hp].
    + rewrite bool_decide_eq_false_2 by (intros E; by apply E).
      cbn -[showControlsWithTimer].
      destruct (showControlsWithTimer_spec w) as (w' & R & F & S & _ & C & _).
      exists w'. split; [exact R|]. rewrite F, S, C. auto.
    + rewrite bool_decide_eq_true_2 by exact Hp.
      destruct (setFocus_then_show_frame (Some progress) w)
        as (w' & R & F & S & C & _).
      exists w'. split; [exact R|]. auto.
Qed.

Lemma showControlsWithTimer_frame w :
  exists w',
    showControlsWithTimer w = Ok tt w' /\
    showControls w' = true /\
    focusedControl w' = focusedControl w /\
    playbackState w' = playbackState w /\
    commands w' = commands w /\
    closeRequests w' = closeRequests w /\
    now w' = now w /\
    hideControlsTimeout w' = Some (nextTimerId w) /\
    pending w' =
      withoutTimer (hideControlsTimeout w) (pending w) ++
      [mkTimer (nextTimerId w) (now w + 3000) None HideControls].
Proof.
  unfold showControlsWithTimer, clearIfSet, clearTimeout,
    setTimeout, bind, gets, modify, skip, ret; cbn -[filter].
  destruct (hideControlsTimeout w); cbn -[filter];
    eexists; (split; [reflexivity|]); cbn -[filter]; auto 10.
Qed.

(** Select with the progress bar focused, or with nothing focused, only
    shows the controls: nothing goes to the player, the playback state
    and the focus stay, and the player is not closed. The play/pause key
    of the remote does the same. *)
Lemma select_without_button w (type : string) :
  focusedControl w = Some progress \/ focusedControl w = None ->
  type = "select" \/ type = "playPause" ->
  exists w',
    handleTVRemoteKey (press type) w = Ok tt w' /\
    commands w' = commands w /\
    playbackState w' = playbackState w /\
    focusedControl w' = focusedControl w /\
    closeRequests w' = closeRequests w /\
    showControls w' = true.
Proof.
  intros Hfocus Htype.
  destruct (showControlsWithTimer_frame w) as (w' & R & S & F & PS & C & CR & _).
  exists w'. split; [|auto].
  destruct Htype as [-> | ->]; run_key;
    destruct Hfocus as [-> | ->]; exact R.
Qed.

(** The play/pause key of the remote is handled as select, whatever is
    focused; so with [back] focused it closes the player and sends nothing
    to it. *)
Lemma playPause_key_is_select w :
  handleTVRemoteKey (press "playPause") w = handleTVRemoteKey (press "select") w /\
  (focusedControl w = Some back ->
   exists w',
     handleTVRemoteKey (press "playPause") w = Ok tt w' /\
     closeRequests w' = S (closeRequests w) /\
     commands w' = commands w /\
     playbackState w' = playbackState w).
Proof.
  split; [reflexivity|].
  intros Hb. run_key. rewrite Hb. unfold onClose, modify.
  destruct (showControlsWithTimer_frame
              (set_closeRequests (S (closeRequests w)) w))
    as (w' & R & _ & _ & PS & C & CR & _).
  exists w'. split; [exact R|]. auto.
Qed.

(** The menu key and the back key close the player whatever is focused,
    and change nothing else: the controls and their hide timer stay as
    they are. *)
Lemma menu_and_back_close w (type : string) :
  type = "menu" \/ type = "back" ->
  handleTVRemoteKey (press type) w =
    Ok tt (set_closeRequests (S (closeRequests w)) w).
Proof. intros [-> | ->]; reflexivity. Qed.

(** X9. The select key and the play/pause key of the remote are handled
    alike, and what they do depends on the focus alone: with [back]
    focused either one closes the player and sends the player nothing;
    with the progress bar or nothing focused either one only shows the
    controls. So the play/pause key toggles playback only while the
    play button is focused. *)
Theorem select_and_playPause_keys w (type : string) :
  type = "select" \/ type = "playPause" ->
  handleTVRemoteKey (press "playPause") w = handleTVRemoteKey (press "select") w /\
  (focusedControl w = Some back ->
   exists w',
     handleTVRemoteKey (press type) w = Ok tt w' /\
     closeRequests w' = S (closeRequests w) /\
     commands w' = commands w /\
     playbackState w' = playbackState w) /\
  (focusedControl w = Some progress \/ focusedControl w = None ->
   exists w',
     handleTVRemoteKey (press type) w = Ok tt w' /\
     closeRequests w' = closeRequests w /\
     commands w' = commands w /\
     playbackState w' = playbackState w /\
     focusedControl w' = focusedControl w /\
     showControls w' = true) /\
  (focusedControl w = Some playPause ->
   handleTVRemoteKey (press type) w =
     (handlePlayPause ;; showControlsWithTimer) w).
Proof.
  intros Htype. refine (conj eq_refl (conj _ (conj _ _))).
  - intros Hb. destruct (playPause_key_is_select w) as [Heq Hclose].
    destruct Htype as [-> | ->]; [rewrite <- Heq|]; by apply Hclose.
  - intros Hfocus.
    destruct (select_without_button w type Hfocus Htype)
      as (w' & R & C & PS & F & CR & S).
    exists w'. auto 10.
  - intros Hpp. destruct Htype as [-> | ->]; run_key; rewrite Hpp; reflexivity.
Qed.

(** X10. A key the handler does not know moves nothing: it shows the controls
    and restarts their timer, and the focus, the playback state and the
    player are as before. *)
Theorem unknown_key_only_shows_controls w (type : string) :
  type ∉ ["playPause"; "select"; "left"; "right"; "up"; "down"; "menu"; "back"] ->
  exists w',
    handleTVRemoteKey (press type) w = Ok tt w' /\
    showControls w' = true /\
    focusedControl w' = focusedControl w /\
    playbackState w' = playbackState w /\
    commands w' = commands w /\
    closeRequests w' = closeRequests w.
Proof.
  intros Hnot.
  assert (Hne : forall known,
    known ∈ ["playPause"; "select"; "left"; "right"; "up"; "down"; "menu"; "back"] ->
    String.eqb type known = false).
  { intros known Hin. apply String.eqb_neq. intros ->. by apply Hnot. }
  destruct (showControlsWithTimer_frame w) as (w' & R & S & F & PS & C & CR & _).
  exists w'. split; [|auto].
  unfold handleTVRemoteKey, press, when, bind, gets.
  cbn [eventKeyAction eventType]. cbn [Z.eqb Pos.eqb].
  rewrite !Hne by set_solver. exact R.
Qed.

(** *** The controls hide after three seconds *)



End MoreRemote.

Lemma select_and_playPause_keys_witness :
  (let w := set_focusedControl (Some back) (testWorld Immediate true) in
   exists w',
     handleTVRemoteKey (press "playPause") w = Ok tt w' /\
     closeRequests w' = 1%nat /\
     commands w' = [] /\
     playbackState w' = playbackState w) /\
  (let w := set_focusedControl (Some progress) (testWorld Immediate true) in
   exists w',
     handleTVRemoteKey (press "playPause") w = Ok tt w' /\
     closeRequests w' = 0%nat /\
     commands w' = [] /\
     playbackState w' = playbackState w /\
     focusedControl w' = Some progress /\
     showControls w' = true).
Proof.
  split; intros w.
  - destruct (select_and_playPause_keys w "playPause") as (_ & A & _ & _);
      [right; reflexivity|]. apply A. reflexivity.
  - destruct (select_and_playPause_keys w "playPause") as (_ & _ & B & _);
      [right; reflexivity|]. apply B. left; reflexivity.
Defined.

Lemma arrows_stay_on_buttons_witness :
  let w := set_focusedControl None (testWorld Deferred false) in
  (exists w' c,
     handleTVRemoteKey (press "left") w = Ok tt w' /\
     focusedControl w' = Some c /\ c ∈ controls) /\
  (exists w' c,
     handleTVRemoteKey (press "right") w = Ok tt w' /\
     focusedControl w' = Some c /\ c ∈ controls).
Proof.
  intros w.
  destruct (arrows_stay_on_buttons w) as (A & B & _); [discriminate|].
  split; [exact A | exact B].
Defined.

Lemma unknown_key_only_shows_controls_witness :
  exists w',
    handleTVRemoteKey (press "fastForward") (testWorld Immediate true) = Ok tt w' /\
    showControls w' = true /\
    focusedControl w' = Some playPause /\
    playbackState w' = playbackState (testWorld Immediate true) /\
    commands w' = [] /\
    closeRequests w' = 0%nat.
Proof.
  apply (unknown_key_only_shows_controls (testWorld Immediate true) "fastForward").
  intros Hin. repeat (apply elem_of_cons in Hin as [Hin|Hin]; [discriminate Hin|]).
  by apply elem_of_nil in Hin.
Defined.


(** ** useVideoHandler.ts : more on the driver *)

Section MoreDriver.

Context {P : Type} `{Primitive P}.
Variables (videoId url hlsUrl : string) (isTV : bool).
Implicit Types (w : @World P).

Ltac run_driver :=
  unfold handleSeek, handleSeekWithPause, handleSeekForward,
    handleSeekBackward, handleRetry, configurePlayer, loadSavedPosition,
    getSavedPosition, startLoadingTimeout, videoSource,
    tryCatch, clearIfSet, pauseIfPlaying, showPosition, updatePlaybackState,
    savePlaybackPosition, setTimeout, clearTimeout, call, when, skip, ret,
    bind, gets, modify;
  cbn -[spread Store.save Store.get filter String.eqb].

Lemma configurePlayer_never_throws w : threw (configurePlayer w) = false.
Proof.
  run_driver.
  destruct (perform (SetLoop false) (player w)) as [p1|p1]; [|reflexivity].
  cbn -[spread].
  destruct (perform (SetAllowsExternalPlayback true) p1) as [p2|p2];
    [|reflexivity].
  cbn -[spread].
  destruct (perform (SetMuted false) p2); reflexivity.
Qed.

Lemma RestoreSavedPosition_never_throws position w :
  threw (runCallback videoId (RestoreSavedPosition position) w) = false.
Proof.
  unfold runCallback. run_driver.
  destruct (perform (SetCurrentTime position) (player w)); reflexivity.
Qed.

(** X12. The handlers written with [try]/[catch] return whatever the player
    does: no exception of the player leaves play/pause, a plain seek
    request, its commit, a retry, the configuration of a new player or
    the restore of a saved position. *)
Theorem guarded_handlers_never_throw position w :
  threw (handlePlayPause w) = false /\
  threw (handleSeek position w) = false /\
  threw (runCallback videoId (SeekCommit position) w) = false /\
  threw (handleRetry url hlsUrl isTV w) = false /\
  threw (configurePlayer w) = false /\
  threw (runCallback videoId (RestoreSavedPosition position) w) = false.
Proof.
  refine (conj _ (conj _ (conj _ (conj _ (conj _ _))))).
  - apply handlePlayPause_never_throws.
  - apply handleSeek_never_throws.
  - apply SeekCommit_never_throws.
  - apply handleRetry_never_throws.
  - apply configurePlayer_never_throws.
  - apply RestoreSavedPosition_never_throws.
Qed.

(** X13. A plain seek request on a playing player whose [pause] throws is
    lost: the error is recorded, no commit is set, the position shown
    stays, and the commit that was pending before the request has been
    cleared all the same. *)
Theorem failed_seek_request_is_lost position w p' :
  playing (player w) = true ->
  perform Pause (player w) = Thrown p' ->
  exists w',
    handleSeek position w = Ok tt w' /\
    error (playbackState w') = Some (Some "Failed to seek in video") /\
    currentTime (playbackState w') = currentTime (playbackState w) /\
    isPlaying (playbackState w') = isPlaying (playbackState w) /\
    pending w' = withoutTimer (seekTimeout w) (pending w) /\
    seekTimeout w' = seekTimeout w.
Proof.
  intros Hplaying Hthrow. run_driver.
  destruct (seekTimeout w) as [id|] eqn:Es; cbn -[spread filter];
    rewrite Hplaying; cbn -[spread filter]; rewrite Hthrow;
    eexists; (split; [reflexivity|]); cbn -[filter]; rewrite ?Es; auto 10.
Qed.

(** A player that cannot be configured: the first assignment that throws
    ends the configuration, and the state shows the error with
    [isLoading] false. *)
Lemma failed_configuration_recorded w p' :
  perform (SetLoop false) (player w) = Thrown p' ->
  exists w',
    configurePlayer w = Ok tt w' /\
    commands w' = commands w ++ [SetLoop false] /\
    error (playbackState w') = Some (Some "Failed to configure video player") /\
    isLoading (playbackState w') = false.
Proof.
  intros Hthrow. run_driver. rewrite Hthrow.
  eexists. split; [reflexivity|]. cbn. auto.
Qed.

Lemma retry_source_is_the_other_url :
  (if String.eqb (videoSource url hlsUrl isTV) hlsUrl then url else hlsUrl) =
  (if isTV then url else hlsUrl).
Proof.
  unfold videoSource. destruct isTV.
  - by rewrite String.eqb_refl.
  - destruct (String.eqb url hlsUrl) eqn:E; [|reflexivity].
    by apply String.eqb_eq in E.
Qed.

Lemma handleRetry_spec w :
  returns (Replace (if isTV then url else hlsUrl)) ->
  exists w',
    handleRetry url hlsUrl isTV w = Ok tt w' /\
    now w' = now w /\
    pending w' = withoutTimer (seekTimeout w) (pending w) /\
    commands w' = commands w ++ [Replace (if isTV then url else hlsUrl)] /\
    playbackState w' =
      {| isPlaying := false; currentTime := 0;
         duration := duration (playbackState w);
         isLoading := true; error := Some None |}.
Proof.
  intros Hreplace. run_driver.
  fold (videoSource url hlsUrl isTV). rewrite retry_source_is_the_other_url.
  destruct (seekTimeout w) as [id|]; cbn -[filter];
    destruct (Hreplace (player w)) as [p' ->];
    eexists; (split; [reflexivity|]); cbn -[filter]; auto 10.
Qed.

(** X14. A retry loads the URL that was not chosen when the player was
    created: [url] on a TV, [hlsUrl] elsewhere. It shows a loading state
    with no error, time 0 and not playing, and keeps the duration. The
    choice does not depend on what the player holds, so a second retry
    loads the same URL again. *)
Theorem retry_loads_the_other_url w :
  returns (Replace (if isTV then url else hlsUrl)) ->
  exists w1 w2,
    handleRetry url hlsUrl isTV w = Ok tt w1 /\
    commands w1 = commands w ++ [Replace (if isTV then url else hlsUrl)] /\
    playbackState w1 =
      {| isPlaying := false; currentTime := 0;
         duration := duration (playbackState w);
         isLoading := true; error := Some None |} /\
    handleRetry url hlsUrl isTV w1 = Ok tt w2 /\
    commands w2 =
      commands w ++ [Replace (if isTV then url else hlsUrl);
                     Replace (if isTV then url else hlsUrl)].
Proof.
  intros Hreplace.
  destruct (handleRetry_spec w Hreplace) as (w1 & R1 & _ & _ & C1 & S1).
  destruct (handleRetry_spec w1 Hreplace) as (w2 & R2 & _ & _ & C2 & _).
  exists w1, w2. split; [exact R1|]. split; [exact C1|]. split; [exact S1|].
  split; [exact R2|]. rewrite C2, C1, <- app_assoc. reflexivity.
Qed.

(** X15. A retry cancels a plain seek that has not been committed: the
    position asked for never reaches the player, however long one waits.
    Stated for a player whose [pause] and [replace] return, with no other
    timer due meanwhile. *)
Theorem retry_cancels_pending_seek position w (gap wait : nat) :
  returns Pause ->
  returns (Replace (if isTV then url else hlsUrl)) ->
  (gap < 300)%nat ->
  Forall (fun t => now w + Z.of_nat gap + Z.of_nat wait < dueAt t) (pending w) ->
  exists w',
    (handleSeek position ;; elapse videoId gap ;;
     handleRetry url hlsUrl isTV ;; elapse videoId wait) w = Ok tt w' /\
    commands w' =
      commands w ++ (if playing (player w) then [Pause] else []) ++
      [Replace (if isTV then url else hlsUrl)] /\
    currentTime (playbackState w') = 0.
Proof.
  intros Hpause Hreplace Hgap Hquiet.
  destruct (handleSeek_spec position w Hpause)
    as (w1 & R1 & N1 & P1 & S1 & C1 & _).
  unfold bind at 1. rewrite R1. unfold bind at 1.
  rewrite (elapse_before videoId gap _ _ w1 P1);
    [| cbn [dueAt]; lia
     | rewrite N1; apply Forall_withoutTimer;
       eapply Forall_impl; [exact Hquiet|]; cbn; intros; lia].
  destruct (handleRetry_spec (set_now (now w1 + Z.of_nat gap) w1) Hreplace)
    as (w2 & R2 & N2 & P2 & C2 & S2).
  unfold bind at 1. rewrite R2.
  cbn [now pending seekTimeout commands set_now] in N2, P2, C2.
  rewrite S1, P1 in P2. cbn [withoutTimer] in P2.
  rewrite filter_app, filter_cons_False, filter_nil, app_nil_r in P2
    by (cbn [timerId]; intros E; apply E; reflexivity).
  rewrite elapse_quiet.
  - eexists. split; [reflexivity|].
    cbn [commands playbackState set_now].
    rewrite C2, C1, S2, <- app_assoc. auto.
  - rewrite N2, N1, P2. apply Forall_filter_keeps, Forall_withoutTimer.
    eapply Forall_impl; [exact Hquiet|]. cbn. intros; lia.
Qed.

(** *** The ten-second jumps *)

Lemma handleSeekWithPause_shows position w :
  returns Pause ->
  exists w',
    handleSeekWithPause position w = Ok tt w' /\
    now w' = now w /\
    pending w' =
      withoutTimer (seekTimeout w) (pending w) ++
      [mkTimer (nextTimerId w) (now w + 100) None (SeekWithPauseCommit position)] /\
    seekTimeout w' = Some (nextTimerId w) /\
    wasPlayingBeforeSeek w' = playing (player w) /\
    commands w' = commands w ++ (if playing (player w) then [Pause] else []) /\
    (playing (player w) = false -> player w' = player w) /\
    (forall p', playing (player w) = true ->
       perform Pause (player w) = Returned p' -> player w' = p') /\
    isPlaying (playbackState w') =
      (if playing (player w) then false else isPlaying (playbackState w)) /\
    currentTime (playbackState w') = position /\
    duration (playbackState w') = duration (playbackState w).
Proof.
  intros Hpause. run_driver.
  destruct (playing (player w)) eqn:Eplaying; cbn -[spread filter].
  - destruct (Hpause (player w)) as [p' Hp]. rewrite Hp. cbn -[spread filter].
    destruct (seekTimeout w) as [id|]; cbn -[spread filter];
      eexists; (split; [reflexivity|]); cbn -[filter];
      (repeat split; try reflexivity; try discriminate);
      intros p'' _ [= ->]; reflexivity.
  - destruct (seekTimeout w) as [id|]; cbn -[spread filter];
      eexists; (split; [reflexivity|]); cbn -[filter];
      rewrite ?app_nil_r;
      (repeat split; try reflexivity; try discriminate).
Qed.

(** X16. A jump shows, and will commit, the time ten seconds on but not past
    the duration, or ten seconds back but not before 0. With the time
    shown between 0 and the duration, both stay in that range. With a
    duration of 0, which is its value until the player is ready, a
    forward jump from a time of 0 or more leads to 0 or less. *)
Theorem jumps_are_clamped w :
  returns Pause ->
  let t := currentTime (playbackState w) in
  let d := duration (playbackState w) in
  (exists w' others,
     handleSeekForward w = Ok tt w' /\
     currentTime (playbackState w') = Z.min (t + 10) d /\
     pending w' =
       others ++ [mkTimer (nextTimerId w) (now w + 100) None
                    (SeekWithPauseCommit (Z.min (t + 10) d))]) /\
  (exists w' others,
     handleSeekBackward w = Ok tt w' /\
     currentTime (playbackState w') = Z.max (t - 10) 0 /\
     pending w' =
       others ++ [mkTimer (nextTimerId w) (now w + 100) None
                    (SeekWithPauseCommit (Z.max (t - 10) 0))]) /\
  (0 <= t <= d ->
     t <= Z.min (t + 10) d <= d /\ 0 <= Z.max (t - 10) 0 <= t) /\
  (d = 0 -> -10 <= t -> Z.min (t + 10) d = 0).
Proof.
  intros Hpause t d. refine (conj _ (conj _ (conj _ _))).
  - destruct (handleSeekWithPause_shows (Z.min (t + 10) d) w Hpause)
      as (w' & R & _ & Pn & _ & _ & _ & _ & _ & _ & T & _).
    exists w', (withoutTimer (seekTimeout w) (pending w)).
    split; [exact R|]. split; [exact T | exact Pn].
  - destruct (handleSeekWithPause_shows (Z.max (t - 10) 0) w Hpause)
      as (w' & R & _ & Pn & _ & _ & _ & _ & _ & _ & T & _).
    exists w', (withoutTimer (seekTimeout w) (pending w)).
    split; [exact R|]. split; [exact T | exact Pn].
  - intros Hrange. lia.
  - intros Hd Ht. lia.
Qed.

Lemma commit_in_100_paused others id position w (wait : nat) :
  returns (SetCurrentTime position) ->
  wasPlayingBeforeSeek w = false ->
  pending w =
    others ++ [mkTimer id (now w + 100) None (SeekWithPauseCommit position)] ->
  Forall (fun o => now w + Z.of_nat wait < dueAt o) others ->
  (100 <= wait)%nat ->
  exists w',
    elapse videoId wait w = Ok tt w' /\
    commands w' = commands w ++ [SetCurrentTime position] /\
    isPlaying (playbackState w') = isPlaying (playbackState w).
Proof.
  intros Hset Hwas Hp Hothers Hwait.
  rewrite (elapse_through videoId wait 99 others _ w Hp);
    [|reflexivity| cbn [dueAt]; lia | lia | exact Hothers].
  cbn [callback timerId]. unfold bind at 1.
  match goal with |- context [runCallback _ _ ?w0] =>
    destruct (SeekWithPauseCommit_spec videoId position w0 Hset)
      as (w1 & R1 & N1 & P1 & C1 & I1)
  end.
  rewrite R1.
  cbn [now pending commands playbackState wasPlayingBeforeSeek nextTimerId
       set_pending set_now] in N1, P1, C1, I1.
  rewrite Hwas, app_nil_r in P1.
  rewrite elapse_quiet.
  - eexists. split; [reflexivity|].
    cbn [commands playbackState set_now]. rewrite C1, I1. auto.
  - rewrite N1, P1. apply Forall_filter_keeps.
    eapply Forall_impl; [exact Hothers|]. cbn. intros; lia.
Qed.

(** X17. Whether to resume is decided anew at every jump. With a player whose
    [pause] takes effect before it returns, a second jump made before the
    first has been committed finds the player paused: the second position
    is committed alone, and playback, running before the first jump, is
    not resumed. *)
Theorem second_jump_forgets_playback first second w (gap wait : nat) :
  returns Pause ->
  returns (SetCurrentTime second) ->
  (forall p p', perform Pause p = Returned p' -> playing p' = false) ->
  playing (player w) = true ->
  (gap < 100)%nat ->
  (100 <= wait)%nat ->
  Forall (fun t => now w + Z.of_nat gap + Z.of_nat wait < dueAt t) (pending w) ->
  exists w',
    (handleSeekWithPause first ;; elapse videoId gap ;;
     handleSeekWithPause second ;; elapse videoId wait) w = Ok tt w' /\
    commands w' = commands w ++ [Pause; SetCurrentTime second] /\
    isPlaying (playbackState w') = false.
Proof.
  intros Hpause Hset Heffect Hplaying Hgap Hwait Hquiet.
  destruct (handleSeekWithPause_shows first w Hpause)
    as (w1 & R1 & N1 & P1 & S1 & _ & C1 & _ & Hp1 & I1 & _).
  unfold bind at 1. rewrite R1. unfold bind at 1.
  rewrite (elapse_before videoId gap _ _ w1 P1);
    [| cbn [dueAt]; lia
     | rewrite N1; apply Forall_withoutTimer;
       eapply Forall_impl; [exact Hquiet|]; cbn; intros; lia].
  destruct (Hpause (player w)) as [p' Hperf].
  assert (Hpaused : playing (player w1) = false).
  { rewrite (Hp1 p' Hplaying Hperf). by eapply Heffect. }
  destruct (handleSeekWithPause_shows second
              (set_now (now w1 + Z.of_nat gap) w1) Hpause)
    as (w2 & R2 & N2 & P2 & _ & W2 & C2 & _ & _ & I2 & _).
  unfold bind at 1. rewrite R2.
  cbn [now pending seekTimeout commands player playbackState set_now]
    in N2, P2, W2, C2, I2.
  rewrite Hpaused in W2, C2, I2. rewrite app_nil_r in C2.
  rewrite S1, P1 in P2. cbn [withoutTimer] in P2.
  rewrite filter_app, filter_cons_False, filter_nil, app_nil_r in P2
    by (cbn [timerId]; intros E; apply E; reflexivity).
  rewrite <- N2 in P2.
  destruct (commit_in_100_paused _ _ _ w2 wait Hset W2 P2) as (w3 & R3 & C3 & I3).
  - rewrite N2, N1. apply Forall_filter_keeps, Forall_withoutTimer.
    eapply Forall_impl; [exact Hquiet|]. cbn. intros; lia.
  - exact Hwait.
  - exists w3. split; [exact R3|].
    rewrite C3, C2, C1, I3, I2, I1, Hplaying, <- app_assoc. auto.
Qed.

(** *** The loading timeout *)


(** *** Resuming from a saved position *)

(** X19. When the player is ready and a recent position is saved for the
    video, that position is assigned to the player 200 ms later, directly
    and once; the state stops loading and [isPlaying] is not touched. With
    nothing recent saved, nothing is sent. Before the player is ready the
    effect does nothing at all. *)
Theorem saved_position_is_restored w (wait : nat) :
  let saved := Store.get (now w) videoId (playbackPositions w) in
  Forall (fun t => now w + Z.of_nat wait < dueAt t) (pending w) ->
  (playerStatus (player w) <> "readyToPlay" ->
   loadSavedPosition videoId w = Ok tt w) /\
  (playerStatus (player w) = "readyToPlay" ->
   exists w',
     (loadSavedPosition videoId ;; elapse videoId wait) w = Ok tt w' /\
     commands w' =
       commands w ++
       (if (0 <? saved) && (200 <=? Z.of_nat wait)
        then [SetCurrentTime saved] else []) /\
     isPlaying (playbackState w') = isPlaying (playbackState w) /\
     isLoading (playbackState w') = false).
Proof.
  intros saved Hquiet. split.
  - intros Hnot. run_driver.
    replace (String.eqb (playerStatus (player w)) "readyToPlay") with false
      by (symmetry; by apply String.eqb_neq).
    reflexivity.
  - intros Hready. run_driver. rewrite Hready. cbn -[spread Store.get].
    fold saved. destruct (0 <? saved) eqn:Esaved; cbn -[spread Store.get].
    + set (w1 := set_playbackState _ _).
      assert (P1 : pending w1 =
        pending w ++
        [mkTimer (nextTimerId w) (now w1 + 200) None (RestoreSavedPosition saved)])
        by reflexivity.
      destruct (200 <=? Z.of_nat wait) eqn:Ewait.
      * apply Z.leb_le in Ewait.
        rewrite (elapse_through videoId wait 199 _ _ w1 P1);
          [|reflexivity| cbn [dueAt]; lia | lia | exact Hquiet].
        cbn [callback timerId runCallback].
        unfold bind at 1, tryCatch, call.
        cbn [player commands set_pending set_now].
        destruct (perform (SetCurrentTime saved) _); unfold skip, ret;
          (rewrite elapse_quiet;
           [ eexists; split; [reflexivity|]; cbn; auto
           | cbn [now pending set_player set_commands set_pending set_now];
             apply Forall_filter_keeps;
             eapply Forall_impl; [exact Hquiet|]; cbn; intros; lia ]).
      * apply Z.leb_gt in Ewait.
        rewrite (elapse_before videoId wait _ _ w1 P1);
          [| cbn [dueAt]; lia | exact Hquiet].
        eexists. split; [reflexivity|]. cbn. rewrite app_nil_r. auto.
    + rewrite elapse_quiet by exact Hquiet.
      eexists. split; [reflexivity|]. cbn. rewrite app_nil_r. auto.
Qed.

(** *** The progress tick *)

(** Once a second: with the player paused the tick changes nothing; with
    the player playing it shows the player's time and sends the player
    nothing, and it checkpoints the time only when it is a multiple of 10
    above 30, so the first checkpoint of a video is at 40 seconds. *)
Lemma progress_tick_checkpoints w :
  let t := playerCurrentTime (player w) in
  (playing (player w) = false ->
   runCallback videoId ProgressTick w = Ok tt w) /\
  (playing (player w) = true ->
   exists w',
     runCallback videoId ProgressTick w = Ok tt w' /\
     commands w' = commands w /\
     currentTime (playbackState w') = t /\
     playbackPositions w' =
       (if (Z.rem t 10 =? 0) && (30 <? t)
        then <[videoId := mkPosition videoId t (now w)]> (playbackPositions w)
        else playbackPositions w)).
Proof.
  intros t. split; intros Hplaying.
  - unfold runCallback, bind, gets, when. rewrite Hplaying. reflexivity.
  - unfold runCallback, bind, gets, when. rewrite Hplaying.
    run_driver. fold t.
    destruct (Z.rem t 10 =? 0); cbn -[Store.save].
    + eexists. split; [reflexivity|]. cbn -[Store.save].
      unfold Store.save. destruct (30 <? t); auto.
    + eexists. split; [reflexivity|]. cbn. auto.
Qed.

End MoreDriver.

Lemma failed_seek_request_is_lost_witness :
  exists w',
    handleSeek 50 (testWorld Broken true) = Ok tt w' /\
    error (playbackState w') = Some (Some "Failed to seek in video") /\
    currentTime (playbackState w') = 20 /\
    isPlaying (playbackState w') = true /\
    pending w' = [] /\
    seekTimeout w' = None.
Proof.
  apply (failed_seek_request_is_lost 50 (testWorld Broken true)
           (testPlayer Broken true)); reflexivity.
Defined.

Lemma retry_loads_the_other_url_witness :
  exists w1 w2,
    handleRetry "a.mp4" "a.m3u8" false (testWorld Immediate true) = Ok tt w1 /\
    commands w1 = [Replace "a.m3u8"] /\
    playbackState w1 =
      {| isPlaying := false; currentTime := 0; duration := 120;
         isLoading := true; error := Some None |} /\
    handleRetry "a.mp4" "a.m3u8" false w1 = Ok tt w2 /\
    commands w2 = [Replace "a.m3u8"; Replace "a.m3u8"].
Proof.
  apply (retry_loads_the_other_url "a.mp4" "a.m3u8" false (testWorld Immediate true)).
  intros p. eexists. reflexivity.
Defined.

Lemma retry_cancels_pending_seek_witness :
  exists w',
    (handleSeek 50 ;; elapse "v1" 200 ;;
     handleRetry "a.mp4" "a.m3u8" true ;; elapse "v1" 1000)
      (testWorld Immediate true) = Ok tt w' /\
    commands w' = [Pause; Replace "a.mp4"] /\
    currentTime (playbackState w') = 0.
Proof.
  destruct (retry_cancels_pending_seek "v1" "a.mp4" "a.m3u8" true 50
              (testWorld Immediate true) 200 1000) as (w' & R & C & T).
  - intros p. eexists. reflexivity.
  - intros p. eexists. reflexivity.
  - lia.
  - constructor.
  - exists w'. split; [exact R|]. split; [exact C | exact T].
Defined.

Lemma jumps_are_clamped_witness :
  let w := set_playbackState
             {| isPlaying := true; currentTime := 115; duration := 120;
                isLoading := false; error := Some None |}
             (testWorld Immediate true) in
  (exists w' others,
     handleSeekForward w = Ok tt w' /\
     currentTime (playbackState w') = 120 /\
     pending w' = others ++ [mkTimer 1 1100 None (SeekWithPauseCommit 120)]) /\
  (115 <= 120 <= 120 /\ 0 <= 105 <= 115).
Proof.
  intros w.
  destruct (jumps_are_clamped w) as (A & _ & C & _).
  - intros p. eexists. reflexivity.
  - split; [exact A|]. apply C. cbn. lia.
Defined.

Lemma second_jump_forgets_playback_witness :
  exists w',
    (handleSeekWithPause 30 ;; elapse "v1" 50 ;;
     handleSeekWithPause 40 ;; elapse "v1" 1000) (testWorld Immediate true)
      = Ok tt w' /\
    commands w' = [Pause; SetCurrentTime 40] /\
    isPlaying (playbackState w') = false.
Proof.
  apply (second_jump_forgets_playback "v1" 30 40 (testWorld Immediate true) 50 1000).
  - intros p. eexists. reflexivity.
  - intros p. eexists. reflexivity.
  - intros p p' [= <-]. reflexivity.
  - reflexivity.
  - lia.
  - lia.
  - constructor.
Defined.


Lemma saved_position_is_restored_witness :
  let w := set_playbackPositions (Store.save 500 "v1" 120 ∅)
             (testWorld Immediate false) in
  exists w',
    (loadSavedPosition "v1" ;; elapse "v1" 250) w = Ok tt w' /\
    commands w' = [SetCurrentTime 120] /\
    isPlaying (playbackState w') = false /\
    isLoading (playbackState w') = false.
Proof.
  intros w.
  destruct (saved_position_is_restored "v1" w 250) as [_ Hready];
    [constructor|].
  apply Hready. reflexivity.
Defined.

(** ** ProgressBar.tsx and the error screen *)

Section MoreScreen.

Context {P : Type} `{Primitive P}.
Variables (url hlsUrl : string) (isTV : bool).
Implicit Types (w : @World P) (s : PlayerScreen P).

(** X20. A press on the progress bar is ignored while the duration is 0 or
    less; otherwise the position handed to [onSeek] lies between 0 and
    the duration, and it is the position pressed when that one is in
    range. *)
Theorem progress_bar_press_in_range (barDuration seekPosition : Z)
    (onSeek : Z -> Action (@World P) unit) w :
  (barDuration <= 0 ->
   ProgressBar_handleSeek barDuration onSeek seekPosition w = Ok tt w) /\
  (0 < barDuration ->
   exists x,
     ProgressBar_handleSeek barDuration onSeek seekPosition w = onSeek x w /\
     0 <= x <= barDuration /\
     (0 <= seekPosition <= barDuration -> x = seekPosition)).
Proof.
  unfold ProgressBar_handleSeek, when. split; intros Hd.
  - replace (0 <? barDuration) with false by (symmetry; apply Z.ltb_ge; lia).
    reflexivity.
  - replace (0 <? barDuration) with true by (symmetry; apply Z.ltb_lt; lia).
    exists (Z.max 0 (Z.min barDuration seekPosition)).
    split; [reflexivity|]. split; lia.
Qed.

Lemma handleRetry_thrown w p' :
  perform (Replace (if isTV then url else hlsUrl)) (player w) = Thrown p' ->
  exists w',
    handleRetry url hlsUrl isTV w = Ok tt w' /\
    error (playbackState w') = Some (Some "Failed to retry video playback") /\
    isLoading (playbackState w') = false.
Proof.
  intros Hthrow.
  unfold handleRetry, tryCatch, clearIfSet, clearTimeout, updatePlaybackState,
    call, bind, gets, modify, skip, ret.
  rewrite retry_source_is_the_other_url.
  cbn -[spread filter].
  destruct (seekTimeout w); cbn -[spread filter]; rewrite Hthrow;
    eexists; (split; [reflexivity|]); cbn; auto.
Qed.

(** X21. "Try Again" never calls [onError] and always ends with [isRetrying]
    false. If the player accepts the other URL the error screen goes away
    and the loading overlay shows; if the player throws, the error screen
    stays, with the retry message. *)
Theorem try_again_never_reports s :
  let s' := handleTryAgain url hlsUrl isTV s in
  errorReports s' = errorReports s /\
  isRetrying s' = false /\
  (returns (Replace (if isTV then url else hlsUrl)) ->
   showsErrorScreen s' = false /\
   isLoading (playbackState (world s')) = true) /\
  (forall p',
     perform (Replace (if isTV then url else hlsUrl)) (player (world s))
       = Thrown p' ->
     showsErrorScreen s' = true /\
     error (playbackState (world s')) =
       Some (Some "Failed to retry video playback")).
Proof.
  cbn zeta. unfold handleTryAgain.
  pose proof (handleRetry_never_throws url hlsUrl isTV (world s)) as Hsafe.
  refine (conj _ (conj _ (conj _ _))).
  - destruct (handleRetry url hlsUrl isTV (world s)); [reflexivity|discriminate].
  - destruct (handleRetry url hlsUrl isTV (world s)); reflexivity.
  - intros Hreplace.
    destruct (handleRetry_spec url hlsUrl isTV (world s) Hreplace)
      as (w' & -> & _ & _ & _ & S).
    unfold showsErrorScreen. cbn [world]. rewrite S. split; reflexivity.
  - intros p' Hthrow.
    destruct (handleRetry_thrown (world s) p' Hthrow) as (w' & -> & E & _).
    unfold showsErrorScreen. cbn [world isRetrying]. rewrite E.
    split; reflexivity.
Qed.

End MoreScreen.

(** ** useVideoData.ts *)

Section Catalog.

Import VideoData.
Implicit Types (st : VideoData.t) (items : list Json) (o : Obj).

Lemma filterValid_null items :
  JNull ∈ items -> filterValid items = None.
Proof.
  induction items as [|j rest IH]; intros Hin; [by apply elem_of_nil in Hin|].
  apply elem_of_cons in Hin as [<-|Hin]; [reflexivity|].
  cbn. destruct j; try (by apply IH); [reflexivity|].
  rewrite IH by exact Hin. reflexivity.
Qed.

Lemma filterValid_sound items valid :
  filterValid items = Some valid ->
  Forall (fun o => isValidVideo o = true /\ JObject o ∈ items) valid /\
  sublist (JObject <$> valid) items.
Proof.
  revert valid; induction items as [|j rest IH]; intros valid Hf.
  - injection Hf as <-. split; [constructor | apply sublist_nil].
  - assert (Hweaken : forall vs,
      Forall (fun o => isValidVideo o = true /\ JObject o ∈ rest) vs ->
      Forall (fun o => isValidVideo o = true /\ JObject o ∈ j :: rest) vs).
    { intros vs Hvs. eapply Forall_impl; [exact Hvs|].
      intros o [Hv Hin]. split; [exact Hv|]. by apply list_elem_of_further. }
    destruct j; cbn in Hf; try discriminate;
      try (destruct (IH _ Hf) as [Hall Hsub]; split;
           [by apply Hweaken | by apply sublist_cons]).
    destruct (filterValid rest) as [vs|] eqn:Erest; [|discriminate].
    destruct (IH vs eq_refl) as [Hall Hsub].
    destruct (isValidVideo fields) eqn:Ev; injection Hf as <-.
    + split.
      * constructor; [split; [exact Ev | apply list_elem_of_here]|].
        by apply Hweaken.
      * cbn. by apply sublist_skip.
    + split; [by apply Hweaken | by apply sublist_cons].
Qed.


(** X23. After a load without error every video has a truthy [id], [title],
    [thumbnail], [url] and [hlsUrl], is an entry of the data, and the
    videos keep the order of the data. *)
Theorem loaded_videos_are_valid (typeErrorMessage : string) items st :
  let st' := loadVideos typeErrorMessage (JArray items) st in
  error st' = None ->
  videos st' <> [] /\
  Forall (fun o => isValidVideo o = true /\ JObject o ∈ items) (videos st') /\
  sublist (JObject <$> videos st') items.
Proof.
  cbn zeta. unfold loadVideos, loadVideos_finish, loadVideos_start.
  destruct (filterValid items) as [[|o valid]|] eqn:Ef; cbn;
    try discriminate.
  intros _. split; [discriminate|]. by apply filterValid_sound.
Qed.

(** X24. One [null] among the entries fails the whole load: the error is the
    engine's message, and no entry is taken, valid or not. *)
Theorem null_entry_fails_load (typeErrorMessage : string) items st :
  JNull ∈ items ->
  let st' := loadVideos typeErrorMessage (JArray items) st in
  error st' = Some typeErrorMessage /\
  videos st' = videos st /\
  isLoading st' = false.
Proof.
  intros Hnull. cbn zeta.
  unfold loadVideos, loadVideos_finish, loadVideos_start.
  rewrite (filterValid_null items Hnull). cbn. auto.
Qed.

(** X25. Toggling a favorite twice gives back the state one started from;
    one toggle flips [isFavorite] for that video and for no other, and
    leaves the videos, the loading flag and the error alone. *)
Theorem toggle_favorite_flips videoId st :
  toggleFavorite videoId (toggleFavorite videoId st) = st /\
  isFavorite videoId (toggleFavorite videoId st) = negb (isFavorite videoId st) /\
  (forall other, other <> videoId ->
     isFavorite other (toggleFavorite videoId st) = isFavorite other st) /\
  videos (toggleFavorite videoId st) = videos st /\
  isLoading (toggleFavorite videoId st) = isLoading st /\
  error (toggleFavorite videoId st) = error st.
Proof.
  assert (Hoff : forall favs : gset string,
    videoId ∉ favs ∖ {[videoId]}).
  { intros favs. rewrite elem_of_difference, elem_of_singleton.
    intros [_ Hn]. by apply Hn. }
  assert (Hon : forall favs : gset string, videoId ∈ favs ∪ {[videoId]}).
  { intros favs. apply elem_of_union. right. by apply elem_of_singleton. }
  refine (conj _ (conj _ (conj _ _))).
  - destruct st as [vs favs l e]. unfold toggleFavorite. cbn.
    f_equal. destruct (decide (videoId ∈ favs)) as [Hin|Hin].
    + rewrite decide_False by apply Hoff.
      apply set_eq. intros x.
      rewrite elem_of_union, elem_of_difference, elem_of_singleton. split.
      * intros [[Hx _]| ->]; assumption.
      * intros Hx. destruct (decide (x = videoId)); [by right | by left].
    + rewrite decide_True by apply Hon.
      apply set_eq. intros x.
      rewrite elem_of_difference, elem_of_union, elem_of_singleton. split.
      * intros [[Hx| ->] Hn]; [assumption | by destruct Hn].
      * intros Hx. split; [by left | intros ->; contradiction].
  - unfold isFavorite, toggleFavorite. cbn.
    destruct (decide (videoId ∈ favorites st)) as [Hin|Hin].
    + rewrite (bool_decide_eq_true_2 _ Hin).
      apply bool_decide_eq_false_2, Hoff.
    + rewrite (bool_decide_eq_false_2 _ Hin).
      apply bool_decide_eq_true_2, Hon.
  - intros other Hne. unfold isFavorite, toggleFavorite. cbn.
    apply bool_decide_ext.
    destruct (decide (videoId ∈ favorites st)).
    + rewrite elem_of_difference, elem_of_singleton. tauto.
    + rewrite elem_of_union, elem_of_singleton. tauto.
  - auto.
Qed.


End Catalog.

(** ** app/index.tsx : the hero banner *)

Section Hero.

Implicit Types (focused : option Obj) (vs : list Obj).


Lemma focusInitialVideo_focused video vs :
  focusInitialVideo (Some video) vs = Some video.
Proof.
  unfold focusInitialVideo.
  rewrite bool_decide_eq_true_2 by eauto. by rewrite andb_false_r.
Qed.

Lemma focusInitialVideo_first video vs :
  focusInitialVideo None (video :: vs) = heroVideo None (video :: vs) /\
  is_Some (heroVideo None (video :: vs)).
Proof.
  unfold focusInitialVideo, heroVideo.
  rewrite bool_decide_eq_false_2 by (intros [? ?]; discriminate).
  replace (0 <? Z.of_nat (length (video :: vs))) with true
    by (symmetry; apply Z.ltb_lt; cbn [length]; lia).
  cbn [andb negb]. split; [reflexivity|].
  destruct (List.find (truthyField "hero") (video :: vs)); cbn; eauto.
Qed.

(** X28. Once the list is loaded the effect focuses a video, and then the
    banner shows that video; the effect changes nothing when a video is
    focused already or the list is empty, so running it again changes
    nothing, and it never changes what the banner shows. *)
Theorem initial_focus_settles focused vs :
  let focused' := focusInitialVideo focused vs in
  (vs <> [] -> is_Some focused' /\ heroVideo focused' vs = focused') /\
  (is_Some focused \/ vs = [] -> focused' = focused) /\
  focusInitialVideo focused' vs = focused' /\
  heroVideo focused' vs = heroVideo focused vs.
Proof.
  cbn zeta. destruct focused as [video|].
  - rewrite !focusInitialVideo_focused. cbn. eauto.
  - destruct vs as [|video vs].
    + cbn. refine (conj _ (conj _ (conj eq_refl eq_refl))); [tauto | auto].
    + destruct (focusInitialVideo_first video vs) as [-> [x Hx]].
      rewrite Hx, focusInitialVideo_focused. cbn [heroVideo].
      refine (conj _ (conj _ (conj eq_refl eq_refl))); [eauto|].
      intros [[? ?]|?]; discriminate.
Qed.

End Hero.

(** ** Unmounting *)

Section Unmounting.

Context {P : Type} `{Primitive P}.
Variable videoId : string.
Implicit Types (w : @World P).

Lemma unmount_spec (interval : positive) w :
  exists w',
    unmount interval w = Ok tt w' /\
    now w' = now w /\
    commands w' = commands w /\
    playbackState w' = playbackState w /\
    player w' = player w /\
    pending w' =
      withoutTimer (hideControlsTimeout w)
        (withoutTimer (loadingTimeout w)
           (withoutTimer (seekTimeout w)
              (withoutTimer (Some interval)
                 (withoutTimer (loadingTimeout w) (pending w))))).
Proof.
  unfold unmount, cleanupTimeouts, cleanupHideControls, clearIfSet,
    clearTimeout, bind, gets, modify, skip, ret.
  destruct (loadingTimeout w) as [l|] eqn:El; cbn -[filter];
    destruct (seekTimeout w) as [s|] eqn:Es; cbn -[filter];
    rewrite ?El; cbn -[filter];
    destruct (hideControlsTimeout w) as [h|] eqn:Eh; cbn -[filter];
    eexists; (split; [reflexivity|]); cbn -[filter]; auto 10.
Qed.

Lemma Forall_without_id (Q : Timer -> Prop) (id : positive) (l : list Timer) :
  Forall (fun t => timerId t ≠ id -> Q t) l ->
  Forall Q (withoutTimer (Some id) l).
Proof.
  intros Hl. cbn. apply Forall_forall. intros t Ht.
  apply list_elem_of_filter in Ht as [Hne Ht].
  rewrite Forall_forall in Hl. by apply Hl.
Qed.

Lemma unmount_clears_commit (Q : Timer -> Prop) (interval : positive)
    others t w w' :
  pending w = others ++ [t] ->
  seekTimeout w = Some (timerId t) ->
  Forall Q others ->
  unmount interval w = Ok tt w' ->
  Forall Q (pending w').
Proof.
  intros Hp Hs Hothers Hrun.
  destruct (unmount_spec interval w) as (w2 & R2 & _ & _ & _ & _ & P2).
  rewrite R2 in Hrun. injection Hrun as <-.
  rewrite P2, Hs, Hp.
  do 2 apply Forall_withoutTimer. apply Forall_without_id.
  do 2 apply Forall_withoutTimer.
  apply Forall_app. split.
  - eapply Forall_impl; [exact Hothers|]. auto.
  - constructor; [|constructor]. intros Hne. by destruct Hne.
Qed.

(** X29. Unmounting cancels a seek that has not been committed, plain or with
    resume: the position asked for never reaches the player afterwards.
    Stated for a player whose [pause] returns, with no other timer due
    meanwhile. *)
Theorem unmount_cancels_pending_seek position (interval : positive) w
    (wait : nat) :
  returns Pause ->
  Forall (fun t => now w + Z.of_nat wait < dueAt t) (pending w) ->
  (exists w',
     (handleSeek position ;; unmount interval ;; elapse videoId wait) w
       = Ok tt w' /\
     commands w' = commands w ++ (if playing (player w) then [Pause] else [])) /\
  (exists w',
     (handleSeekWithPause position ;; unmount interval ;; elapse videoId wait) w
       = Ok tt w' /\
     commands w' = commands w ++ (if playing (player w) then [Pause] else [])).
Proof.
  intros Hpause Hquiet. split.
  - destruct (handleSeek_spec position w Hpause)
      as (w1 & R1 & N1 & P1 & S1 & C1 & _).
    unfold bind at 1. rewrite R1.
    destruct (unmount_spec interval w1) as (w2 & R2 & N2 & C2 & _).
    unfold bind at 1. rewrite R2.
    rewrite elapse_quiet.
    + eexists. split; [reflexivity|]. cbn [commands set_now].
      by rewrite C2, C1.
    + rewrite N2, N1.
      eapply (unmount_clears_commit _ interval _ _ w1 w2 P1 S1); [|exact R2].
      by apply Forall_withoutTimer.
  - destruct (handleSeekWithPause_spec position w Hpause)
      as (w1 & R1 & N1 & P1 & _ & C1 & _).
    assert (S1 : seekTimeout w1 = Some (nextTimerId w)).
    { destruct (handleSeekWithPause_shows position w Hpause)
        as (w1' & R1' & _ & _ & S1' & _).
      rewrite R1 in R1'. by injection R1' as <-. }
    unfold bind at 1. rewrite R1.
    destruct (unmount_spec interval w1) as (w2 & R2 & N2 & C2 & _).
    unfold bind at 1. rewrite R2.
    rewrite elapse_quiet.
    + eexists. split; [reflexivity|]. cbn [commands set_now].
      by rewrite C2, C1.
    + rewrite N2, N1.
      eapply (unmount_clears_commit _ interval _ _ w1 w2 P1 S1); [|exact R2].
      by apply Forall_withoutTimer.
Qed.

Lemma handleSeekWithPause_playing position w :
  returns Pause ->
  playing (player w) = true ->
  exists w',
    handleSeekWithPause position w = Ok tt w' /\
    now w' = now w /\
    pending w' =
      withoutTimer (seekTimeout w) (pending w) ++
      [mkTimer (nextTimerId w) (now w + 100) None (SeekWithPauseCommit position)] /\
    seekTimeout w' = Some (nextTimerId w) /\
    wasPlayingBeforeSeek w' = true /\
    commands w' = commands w ++ [Pause] /\
    nextTimerId w' = Pos.succ (nextTimerId w) /\
    loadingTimeout w' = loadingTimeout w /\
    hideControlsTimeout w' = hideControlsTimeout w.
Proof.
  intros Hpause Hplaying.
  unfold handleSeekWithPause, clearIfSet, pauseIfPlaying, showPosition,
    updatePlaybackState, setTimeout, clearTimeout, call, when, skip, ret,
    bind, gets, modify.
  cbn -[spread filter]. rewrite Hplaying. cbn -[spread filter].
  destruct (Hpause (player w)) as [p' ->]. cbn -[spread filter].
  destruct (seekTimeout w) as [id|]; cbn -[spread filter];
    eexists; (split; [reflexivity|]); cbn -[filter]; auto 10.
Qed.

Lemma SeekWithPauseCommit_resuming position w :
  returns (SetCurrentTime position) ->
  wasPlayingBeforeSeek w = true ->
  exists w',
    runCallback videoId (SeekWithPauseCommit position) w = Ok tt w' /\
    now w' = now w /\
    pending w' =
      pending w ++ [mkTimer (nextTimerId w) (now w + 300) None ResumeAfterSeek] /\
    commands w' = commands w ++ [SetCurrentTime position] /\
    seekTimeout w' = seekTimeout w /\
    loadingTimeout w' = loadingTimeout w /\
    hideControlsTimeout w' = hideControlsTimeout w.
Proof.
  intros Hset Hwas.
  unfold runCallback, savePlaybackPosition, setTimeout, call, when, skip, ret,
    bind, gets, modify.
  destruct (Hset (player w)) as [p' ->]. cbn -[Store.save].
  rewrite Hwas. cbn -[Store.save].
  eexists. split; [reflexivity|]. cbn. auto 10.
Qed.

Lemma withoutTimer_keeps_last (ref : option positive) (l : list Timer) t :
  ref <> Some (timerId t) ->
  withoutTimer ref (l ++ [t]) = withoutTimer ref l ++ [t].
Proof.
  intros Hne. destruct ref as [id|]; cbn; [|reflexivity].
  rewrite filter_app, filter_cons_True, filter_nil; [reflexivity|].
  intros E. apply Hne. by rewrite E.
Qed.

(** X30. The timer that resumes playback after a jump is held by no ref, so
    unmounting does not cancel it. When the screen unmounts after the
    jump of a playing player was committed and before playback resumed,
    the player is still told to play, 400 ms after the jump, and
    [isPlaying] is set. Stated for a player whose commands return and
    for handles handed out before the jump. *)
Theorem resume_survives_unmount position (interval : positive) w
    (gap wait : nat) :
  returns Pause -> returns (SetCurrentTime position) -> returns Play ->
  playing (player w) = true ->
  (loadingTimeout w <> Some (Pos.succ (nextTimerId w))) ->
  (hideControlsTimeout w <> Some (Pos.succ (nextTimerId w))) ->
  interval <> Pos.succ (nextTimerId w) ->
  (100 <= gap < 400)%nat ->
  (400 <= gap + wait)%nat ->
  Forall (fun t => now w + Z.of_nat gap + Z.of_nat wait < dueAt t) (pending w) ->
  exists w',
    (handleSeekWithPause position ;; elapse videoId gap ;;
     unmount interval ;; elapse videoId wait) w = Ok tt w' /\
    commands w' = commands w ++ [Pause; SetCurrentTime position; Play] /\
    isPlaying (playbackState w') = true.
Proof.
  intros Hpause Hset Hplay Hplaying Hl Hh Hi Hgap Hwait Hquiet.
  destruct (handleSeekWithPause_playing position w Hpause Hplaying)
    as (w1 & R1 & N1 & P1 & S1 & W1 & C1 & I1 & L1 & D1).
  unfold bind at 1. rewrite R1. unfold bind at 1.
  rewrite <- N1 in P1.
  rewrite (elapse_through videoId gap 99 _ _ w1 P1);
    [|reflexivity| cbn [dueAt]; lia | lia
     | rewrite N1; apply Forall_withoutTimer;
       eapply Forall_impl; [exact Hquiet|]; cbn; intros; lia].
  cbn [callback timerId]. unfold bind at 1.
  match goal with |- context [runCallback _ _ ?w0] =>
    destruct (SeekWithPauseCommit_resuming position w0 Hset W1)
      as (w2 & R2 & N2 & P2 & C2 & S2 & L2 & D2)
  end.
  rewrite R2.
  cbn [now pending commands seekTimeout loadingTimeout hideControlsTimeout
       nextTimerId set_pending set_now] in N2, P2, C2, S2, L2, D2.
  assert (Hold : Forall
    (fun t => now w + Z.of_nat gap + Z.of_nat wait < dueAt t)
    (filter (fun t' => timerId t' ≠ nextTimerId w)
       (withoutTimer (seekTimeout w) (pending w)))).
  { by apply Forall_filter_keeps, Forall_withoutTimer. }
  rewrite (elapse_before videoId (gap - 100) _ _ w2 P2);
    [| cbn [dueAt]; lia
     | rewrite N2; eapply Forall_impl; [exact Hold|]; cbn; intros; lia].
  destruct (unmount_spec interval (set_now (now w2 + Z.of_nat (gap - 100)) w2))
    as (w3 & R3 & N3 & C3 & PS3 & _ & P3).
  unfold bind at 1. rewrite R3.
  cbn [now pending commands playbackState seekTimeout loadingTimeout
       hideControlsTimeout set_now] in N3, C3, PS3, P3.
  rewrite P2, S2, S1, L2, L1, D2, D1, I1 in P3.
  rewrite !withoutTimer_keeps_last in P3
    by (cbn [timerId]; first [exact Hh | exact Hl | congruence
                              | intros [= E]; by apply (Pos.succ_discr (nextTimerId w))]).
  rewrite (elapse_through videoId wait (399 - gap) _ _ w3 P3);
    [|reflexivity| cbn [dueAt]; lia | lia
     | rewrite N3, N2; do 5 apply Forall_withoutTimer;
       eapply Forall_impl; [exact Hold|]; cbn; intros; lia].
  cbn [callback timerId]. unfold bind at 1.
  match goal with |- context [runCallback _ _ ?w0] =>
    destruct (ResumeAfterSeek_spec videoId w0 Hplay)
      as (w4 & R4 & N4 & P4 & C4 & I4)
  end.
  rewrite R4.
  cbn [now pending commands set_pending set_now] in N4, P4, C4.
  rewrite elapse_quiet.
  - eexists. split; [reflexivity|].
    cbn [commands playbackState set_now].
    rewrite C4, C3, C2, C1, <- !app_assoc. auto.
  - rewrite N4, P4, N3, N2. apply Forall_filter_keeps.
    do 5 apply Forall_withoutTimer.
    eapply Forall_impl; [exact Hold|]. cbn. intros; lia.
Qed.

End Unmounting.

Lemma unmount_cancels_pending_seek_witness :
  let w := testWorld Immediate true in
  (exists w',
     (handleSeek 50 ;; unmount 7 ;; elapse "v1" 1000) w = Ok tt w' /\
     commands w' = [Pause]) /\
  (exists w',
     (handleSeekWithPause 50 ;; unmount 7 ;; elapse "v1" 1000) w = Ok tt w' /\
     commands w' = [Pause]).
Proof.
  intros w.
  destruct (unmount_cancels_pending_seek "v1" 50 7%positive w 1000)
    as [(w1 & R1 & C1) (w2 & R2 & C2)].
  - intros p. eexists. reflexivity.
  - constructor.
  - split; [exists w1 | exists w2]; (split; [assumption|]); assumption.
Defined.

Lemma resume_survives_unmount_witness :
  exists w',
    (handleSeekWithPause 50 ;; elapse "v1" 150 ;;
     unmount 7 ;; elapse "v1" 1000) (testWorld Immediate true) = Ok tt w' /\
    commands w' = [Pause; SetCurrentTime 50; Play] /\
    isPlaying (playbackState w') = true.
Proof.
  destruct (resume_survives_unmount "v1" 50 7%positive (testWorld Immediate true)
              150 1000) as (w' & R & C & I);
    try (intros p; eexists; reflexivity);
    try discriminate; try reflexivity; try lia; [constructor|].
  exists w'. split; [exact R|]. split; [exact C | exact I].
Defined.

(** ** The error screen after an error event *)

Section ErrorScreen.

Context {P : Type} `{Primitive P}.
Implicit Types (w : @World P).

(** X6. An [error] status event stops loading and playing. The error screen
    then shows, unless a retry is running or the event carried the empty
    string: only that payload gives an empty message, which the screen's
    test takes for no error. *)
Theorem error_event_shows_error_screen (payload : ErrorPayload)
    (retrying : bool) (reports : nat) w :
  exists w',
    onStatusChange (mkStatusChange "error" payload) w = Ok tt w' /\
    isLoading (playbackState w') = false /\
    isPlaying (playbackState w') = false /\
    commands w' = commands w /\
    showsErrorScreen (mkPlayerScreen P w' retrying reports) =
      negb retrying && negb (bool_decide (payload = ErrorString "")).
Proof.
  eexists. split; [reflexivity|]. cbn [playbackState set_playbackState spread
    isLoading isPlaying commands u_isLoading u_isPlaying default].
  refine (conj eq_refl (conj eq_refl (conj eq_refl _))).
  unfold showsErrorScreen. cbn.
  destruct (decide (payload = ErrorString "")) as [->|Hne].
  - rewrite bool_decide_eq_true_2 by reflexivity. cbn. by rewrite andb_false_r.
  - rewrite (bool_decide_eq_false_2 _ Hne).
    pose proof (error_message_not_empty payload Hne) as Hmsg.
    unfold falsy. apply String.eqb_neq in Hmsg. rewrite Hmsg.
    cbn. by rewrite andb_true_r.
Qed.

End ErrorScreen.

(** ** Concrete runs of the further properties *)

Lemma progress_bar_press_in_range_witness :
  (ProgressBar_handleSeek 0 handleSeek 60 (testWorld Immediate true) =
     Ok tt (testWorld Immediate true)) /\
  (exists x,
     ProgressBar_handleSeek 120 handleSeek 500 (testWorld Immediate true) =
       handleSeek x (testWorld Immediate true) /\
     0 <= x <= 120).
Proof.
  destruct (progress_bar_press_in_range 0 60 handleSeek (testWorld Immediate true))
    as [A _].
  destruct (progress_bar_press_in_range 120 500 handleSeek (testWorld Immediate true))
    as [_ B].
  split; [apply A; lia|].
  destruct B as (x & R & Hx & _); [lia|]. exists x. split; [exact R | exact Hx].
Defined.

Lemma try_again_never_reports_witness :
  let broken :=
    handleTryAgain "a.mp4" "a.m3u8" false
      (mkPlayerScreen _ (testWorld Broken false) false 0) in
  let sound :=
    handleTryAgain "a.mp4" "a.m3u8" false
      (mkPlayerScreen _ (testWorld Immediate false) false 0) in
  errorReports broken = 0%nat /\
  showsErrorScreen broken = true /\
  showsErrorScreen sound = false.
Proof.
  cbn zeta.
  destruct (try_again_never_reports "a.mp4" "a.m3u8" false
              (mkPlayerScreen _ (testWorld Broken false) false 0))
    as (A & _ & _ & B).
  destruct (try_again_never_reports "a.mp4" "a.m3u8" false
              (mkPlayerScreen _ (testWorld Immediate false) false 0))
    as (_ & _ & C & _).
  split; [exact A|]. split.
  - apply (B (testPlayer Broken false)). reflexivity.
  - apply C. intros p. eexists. reflexivity.
Defined.


Lemma loaded_videos_are_valid_witness :
  let st' :=
    VideoData.loadVideos "TypeError"
      (JArray [JNumber 3; JObject (sampleVideo "4" true)]) VideoData.initial in
  VideoData.videos st' <> [] /\
  Forall (fun o => isValidVideo o = true /\
                   JObject o ∈ [JNumber 3; JObject (sampleVideo "4" true)])
         (VideoData.videos st').
Proof.
  cbn zeta.
  destruct (loaded_videos_are_valid "TypeError"
              [JNumber 3; JObject (sampleVideo "4" true)] VideoData.initial)
    as (A & B & _); [reflexivity|].
  split; [exact A | exact B].
Defined.

Lemma null_entry_fails_load_witness :
  let st' :=
    VideoData.loadVideos "TypeError"
      (JArray [JObject (sampleVideo "1" false); JNull]) VideoData.initial in
  VideoData.error st' = Some "TypeError" /\
  VideoData.videos st' = [] /\
  VideoData.isLoading st' = false.
Proof.
  apply (null_entry_fails_load "TypeError"
           [JObject (sampleVideo "1" false); JNull] VideoData.initial).
  apply list_elem_of_further, list_elem_of_here.
Defined.

Lemma toggle_favorite_flips_witness :
  let st := VideoData.toggleFavorite "4" VideoData.initial in
  VideoData.isFavorite "1" (VideoData.toggleFavorite "4" st) =
    VideoData.isFavorite "1" st /\
  VideoData.toggleFavorite "4" (VideoData.toggleFavorite "4" st) = st.
Proof.
  intros st. destruct (toggle_favorite_flips "4" st) as (A & _ & B & _).
  split; [apply B; discriminate | exact A].
Defined.



Lemma initial_focus_settles_witness :
  let vs := [sampleVideo "1" false; sampleVideo "4" true] in
  is_Some (focusInitialVideo None vs) /\
  heroVideo (focusInitialVideo None vs) vs = focusInitialVideo None vs /\
  focusInitialVideo (Some (sampleVideo "1" false)) vs =
    Some (sampleVideo "1" false).
Proof.
  intros vs. destruct (initial_focus_settles None vs) as (A & _).
  destruct (initial_focus_settles (Some (sampleVideo "1" false)) vs)
    as (_ & B & _).
  destruct A as [A1 A2]; [discriminate|].
  split; [exact A1|]. split; [exact A2|]. apply B. left. eauto.
Defined.
